(** * LAF OS library: the Windows drag-and-drop adapter and the Wintab
      button mapping

    A shallow embedding of [os/win/dnd.cpp] and of
    [WintabAPI::mapCursorButton] from [os/win/wintab.cpp].

    Conventions.
    - C integers are [Z]; a test [if (x)] is [x <> 0].
    - A pointer to a COM object, raw or held in a [ComPtr], is an [option];
      [None] is [nullptr].  Memory handles and addresses are integers, and
      [NULL] is 0.
    - Win32 calls whose order matters (format queries and medium releases)
      are recorded in a chronological trace. *)

From Stdlib Require Import ZArith List String Ascii Bool Lia Permutation.
Import ListNotations.
Open Scope Z_scope.

(** ** Win32 constants (Windows SDK headers) *)

Definition DWORD := Z.
Definition HRESULT := Z.
Definition CLIPFORMAT := Z.
Definition HGLOBAL := Z.
Definition HWND := Z.

Definition S_OK : HRESULT := 0.
Definition E_NOTIMPL : HRESULT := 0x80004001 - 2 ^ 32.
Definition E_UNEXPECTED : HRESULT := 0x8000FFFF - 2 ^ 32.

Definition DROPEFFECT_NONE : DWORD := 0.
Definition DROPEFFECT_COPY : DWORD := 1.
Definition DROPEFFECT_MOVE : DWORD := 2.
Definition DROPEFFECT_LINK : DWORD := 4.
Definition DROPEFFECT_SCROLL : DWORD := 0x80000000.

Definition CF_DIB : CLIPFORMAT := 8.
Definition CF_HDROP : CLIPFORMAT := 15.
Definition CF_DIBV5 : CLIPFORMAT := 17.

Definition DVASPECT_CONTENT : Z := 1.
Definition TYMED_HGLOBAL : Z := 1.
Definition TYMED_NULL : Z := 0.
Definition DATADIR_GET : Z := 1.

(** The C truth value of an integer. *)
Definition truthy (z : Z) : bool := negb (z =? 0).

(** ** [os::DropOperation]

    The enumeration is declared in [os/dnd.h], which is not part of the
    sources at hand; its four enumerators are taken as parameters. *)

Class DropOperationEnum := {
  DropOperation_None : Z;
  DropOperation_Copy : Z;
  DropOperation_Move : Z;
  DropOperation_Link : Z
}.

(** What "an enum usable as a bit-set" asks of the enumerators: [None] has
    no bit, every operation has one, and no two operations share a bit. *)
Class DropOperationBitSet (E : DropOperationEnum) : Prop := {
  None_no_bits : DropOperation_None = 0;
  Copy_some_bit : DropOperation_Copy <> 0;
  Move_some_bit : DropOperation_Move <> 0;
  Link_some_bit : DropOperation_Link <> 0;
  Copy_Move_apart : Z.land DropOperation_Copy DropOperation_Move = 0;
  Copy_Link_apart : Z.land DropOperation_Copy DropOperation_Link = 0;
  Move_Link_apart : Z.land DropOperation_Move DropOperation_Link = 0
}.

(** Modelled from the spec: the enumerator values of [os::DropOperation]
    ([os/dnd.h], not under src/), a bit-set over Copy, Move and Link with an
    explicit no-operation value.  Used only to run the model on concrete
    inputs. *)
Definition laf_DropOperation : DropOperationEnum :=
  {| DropOperation_None := 0;
     DropOperation_Copy := 1;
     DropOperation_Move := 2;
     DropOperation_Link := 4 |}.

Section EffectConversion.
Context {E : DropOperationEnum}.

(** [as_dropeffect], dnd.cpp lines 18-31. *)
Definition as_dropeffect (op : Z) : DWORD :=
  let effect := DROPEFFECT_NONE in
  let effect :=
    if truthy (Z.land op DropOperation_Copy)
    then Z.lor effect DROPEFFECT_COPY else effect in
  let effect :=
    if truthy (Z.land op DropOperation_Move)
    then Z.lor effect DROPEFFECT_MOVE else effect in
  let effect :=
    if truthy (Z.land op DropOperation_Link)
    then Z.lor effect DROPEFFECT_LINK else effect in
  effect.

(** [as_dropoperation], dnd.cpp lines 33-46. *)
Definition as_dropoperation (pdwEffect : DWORD) : Z :=
  let op := 0 in
  let op :=
    if truthy (Z.land pdwEffect DROPEFFECT_COPY)
    then Z.lor op DropOperation_Copy else op in
  let op :=
    if truthy (Z.land pdwEffect DROPEFFECT_MOVE)
    then Z.lor op DropOperation_Move else op in
  let op :=
    if truthy (Z.land pdwEffect DROPEFFECT_LINK)
    then Z.lor op DropOperation_Link else op in
  op.

(** The operation bitmask [Copy|Move|Link] restricted to the chosen
    members; the empty choice is [None]. *)
Definition operation_set (copy move link : bool) : Z :=
  Z.lor (Z.lor (Z.lor DropOperation_None
                      (if copy then DropOperation_Copy else 0))
               (if move then DropOperation_Move else 0))
        (if link then DropOperation_Link else 0).
End EffectConversion.

(** ** Transfer objects, media and the platform *)

Definition LPVOID := Z.
Definition NULL : Z := 0.

Record FORMATETC := {
  cfFormat : CLIPFORMAT;
  ptd : LPVOID;
  dwAspect : Z;
  lindex : Z;
  tymed : Z
}.

Record STGMEDIUM := {
  medium_tymed : Z;
  hGlobal : HGLOBAL
}.

(** An [IDataObject] is known by the answers of the two methods the code
    calls.  [GetData] yields the status and what it left in the medium;
    [EnumFormatEtc] yields the status and the formats its enumerator hands
    out, one per successful [Next]. *)
Record IDataObject := {
  GetData : FORMATETC -> HRESULT * STGMEDIUM;
  EnumFormatEtc : Z -> HRESULT * list FORMATETC
}.

(** The Win32 calls that create and destroy transfer media, as they happen. *)
Inductive os_event :=
| EvGetData (fmt : FORMATETC) (hr : HRESULT) (medium : STGMEDIUM)
| EvReleaseStgMedium (medium : STGMEDIUM).

Definition trace := list os_event.

(** A computation that appends to the trace. *)
Definition M (A : Type) : Type := trace -> A * trace.

Definition ret {A} (a : A) : M A := fun tr => (a, tr).

Definition bind {A B} (m : M A) (k : A -> M B) : M B :=
  fun tr => let (a, tr') := m tr in k a tr'.

Definition emit (e : os_event) : M unit := fun tr => (tt, tr ++ [e]).

Declare Scope dnd_scope.
Delimit Scope dnd_scope with dnd.
Notation "x <- m ;; k" := (bind m (fun x => k))
  (at level 61, m at next level, right associativity) : dnd_scope.
Notation "m ;;; k" := (bind m (fun _ => k))
  (at level 61, right associativity) : dnd_scope.

(** [clip::image_spec] and [clip::image] (the clip library). *)
Record image_spec := {
  width : Z;
  height : Z;
  bits_per_pixel : Z;
  red_mask : Z;
  green_mask : Z;
  blue_mask : Z;
  alpha_mask : Z;
  red_shift : Z;
  green_shift : Z;
  blue_shift : Z;
  alpha_shift : Z
}.

Record image := {
  spec : image_spec;
  data : LPVOID
}.

Inductive PixelAlpha := kOpaque | kPremultiplied | kStraight.

Record SurfaceFormatData := {
  bitsPerPixel : Z;
  redMask : Z;
  greenMask : Z;
  blueMask : Z;
  alphaMask : Z;
  redShift : Z;
  greenShift : Z;
  blueShift : Z;
  alphaShift : Z;
  pixelAlpha : PixelAlpha
}.

(** A surface is known by its handle; a [SurfaceRef] may be null. *)
Definition SurfaceRef := option Z.

Record POINTL := { pt_x : Z; pt_y : Z }.

(** [gfx::Point]. *)
Record Point := { x : Z; y : Z }.

(** What the code asks of the operating system, of the clip library and of
    [os::System]. *)
Class Platform := {
  GlobalLock : HGLOBAL -> LPVOID;
  GlobalSize : HGLOBAL -> Z;
  RegisterClipboardFormatA : string -> Z;
  (** the name under which a clipboard format was registered, if any *)
  registered_name : CLIPFORMAT -> option string;
  (** [clip::win::read_png(buf, len, &img, nullptr)]; [None] is [false] *)
  read_png : LPVOID -> Z -> option image;
  (** [clip::win::BitmapInfo(BITMAPV5HEADER* ).to_image(img)] *)
  BitmapInfo_V5_to_image : LPVOID -> option image;
  (** [clip::win::BitmapInfo(BITMAPINFO* ).to_image(img)] *)
  BitmapInfo_to_image : LPVOID -> option image;
  (** [os::instance()->makeSurface(width, height, sfd, data)] *)
  System_makeSurface : Z -> Z -> SurfaceFormatData -> LPVOID -> SurfaceRef;
  ScreenToClient : HWND -> POINTL -> POINTL
}.

(** The documented behaviour of the Win32 calls the claims rest on. *)
Class Win32Contract (P : Platform) : Prop := {
  (** locking the null handle fails *)
  GlobalLock_NULL : GlobalLock NULL = NULL;
  (** only registered formats, numbered 0xC000 to 0xFFFF, have a name *)
  registered_range :
    forall f s, registered_name f = Some s -> 0xC000 <= f <= 0xFFFF
}.

Section Provider.
Context {P : Platform}.

(** [drag_position], dnd.cpp lines 49-53. *)
Definition drag_position (hwnd : HWND) (pt : POINTL) : Point :=
  let pt := ScreenToClient hwnd pt in
  {| x := pt_x pt; y := pt_y pt |}.

(** [GLocked<T>], dnd.cpp lines 56-79.  Locking and unlocking leave no
    mark on the trace. *)
Record GLocked := {
  m_hmem : HGLOBAL;
  g_data : LPVOID
}.

Definition GLocked_ctor (hglobal : HGLOBAL) : GLocked :=
  {| m_hmem := hglobal; g_data := GlobalLock hglobal |}.

Definition GLocked_size (g : GLocked) : Z := GlobalSize (m_hmem g).

(** [GetClipboardFormatNameA(format, buffer, cchMaxCount)]: copies at
    most [cchMaxCount - 1] characters of the registered name and returns
    how many; returns 0 and leaves the buffer alone when the format has
    no registered name. *)
Definition GetClipboardFormatNameA
    (format : CLIPFORMAT) (buffer : string) (cchMaxCount : Z)
    : Z * string :=
  match registered_name format with
  | Some s =>
      let copied := substring 0 (Z.to_nat (cchMaxCount - 1)) s in
      (Z.of_nat (String.length copied), copied)
  | None => (0, buffer)
  end.
End Provider.

(** ** [DataWrapper], dnd.cpp lines 81-117 *)

Module DataWrapper.
Section DataWrapper.
Context {P : Platform}.
Local Open Scope dnd_scope.

Record t := {
  m_data : IDataObject;
  m_medium : STGMEDIUM;
  m_result : HRESULT
}.

(** The constructor.  [m_medium] has no initialiser: its content is
    indeterminate until [GetData] writes it, and it is not read before,
    since [m_result] starts at [-1L]. *)
Definition ctor (data : IDataObject) (indeterminate : STGMEDIUM) : t :=
  {| m_data := data; m_medium := indeterminate; m_result := -1 |}.

Definition release (this : t) : M t :=
  if m_result this =? S_OK then
    emit (EvReleaseStgMedium (m_medium this)) ;;;
    ret {| m_data := m_data this;
           m_medium := m_medium this;
           m_result := -1 |}
  else ret this.

Definition get (this : t) (cfmt : CLIPFORMAT) : M (GLocked * t) :=
  this <- release this ;;
  let fmt := {| cfFormat := cfmt;
                ptd := NULL;
                dwAspect := DVASPECT_CONTENT;
                lindex := -1;
                tymed := TYMED_HGLOBAL |} in
  let (hr, medium) := GetData (m_data this) fmt in
  emit (EvGetData fmt hr medium) ;;;
  let this := {| m_data := m_data this;
                 m_medium := medium;
                 m_result := hr |} in
  if negb (m_result this =? S_OK) then ret (GLocked_ctor NULL, this)
  else ret (GLocked_ctor (hGlobal (m_medium this)), this).

(** The destructor. *)
Definition dtor (this : t) : M unit :=
  _ <- release this ;; ret tt.

(** A source's whole life: construction, one [get] per requested
    format, destruction. *)
Fixpoint gets (this : t) (cfmts : list CLIPFORMAT) : M t :=
  match cfmts with
  | [] => ret this
  | cfmt :: rest => r <- get this cfmt ;; gets (snd r) rest
  end.

Definition lifetime (data : IDataObject) (indeterminate : STGMEDIUM)
    (cfmts : list CLIPFORMAT) : M unit :=
  this <- gets (ctor data indeterminate) cfmts ;; dtor this.
End DataWrapper.
End DataWrapper.

(** ** Media alive after a trace *)

Definition STGMEDIUM_eqb (a b : STGMEDIUM) : bool :=
  (medium_tymed a =? medium_tymed b) && (hGlobal a =? hGlobal b).

Fixpoint remove_first (m : STGMEDIUM) (l : list STGMEDIUM) : list STGMEDIUM :=
  match l with
  | [] => []
  | a :: l' => if STGMEDIUM_eqb m a then l' else a :: remove_first m l'
  end.

(** One event's effect on the media not yet released: a [GetData] that
    returns [S_OK] hands out a medium, [ReleaseStgMedium] gives one back. *)
Definition live_step (live : list STGMEDIUM) (e : os_event) : list STGMEDIUM :=
  match e with
  | EvGetData _ hr medium => if hr =? S_OK then medium :: live else live
  | EvReleaseStgMedium medium => remove_first medium live
  end.

Definition live_media (tr : trace) : list STGMEDIUM :=
  fold_left live_step tr [].

Arguments live_media : simpl never.

(** The formats queried along a trace, in order. *)
Fixpoint queried (tr : trace) : list CLIPFORMAT :=
  match tr with
  | [] => []
  | EvGetData fmt _ _ :: tr' => cfFormat fmt :: queried tr'
  | EvReleaseStgMedium _ :: tr' => queried tr'
  end.

(** ** [DragDataProviderWin], dnd.cpp lines 144-224 *)

Inductive DragDataItemType := Paths | Image.

Module DragDataProviderWin.
Section DragDataProviderWin.
Context {P : Platform}.
Local Open Scope dnd_scope.

(** The provider holds a raw pointer to the transfer object, which may
    be null.  The methods below are the bodies for a provider whose
    pointer is not null; [m_data] is what it points to. *)
Record t := { m_data : option IDataObject }.

(** The [makeSurface] lambda of [getImage]. *)
Definition makeSurface (img : image) : SurfaceRef :=
  let spec := spec img in
  let sfd := {| bitsPerPixel := bits_per_pixel spec;
                redMask := red_mask spec;
                greenMask := green_mask spec;
                blueMask := blue_mask spec;
                alphaMask := alpha_mask spec;
                redShift := red_shift spec;
                greenShift := green_shift spec;
                blueShift := blue_shift spec;
                alphaShift := alpha_shift spec;
                pixelAlpha := kStraight |} in
  System_makeSurface (width spec) (height spec) sfd (data img).

(** The PNG block of [getImage], lines 166-172: the image to return
    from, if any, and the wrapper afterwards. *)
Definition getImage_png (data : DataWrapper.t)
    : M (option image * DataWrapper.t) :=
  let png_format := RegisterClipboardFormatA "PNG" in
  if truthy png_format then
    r <- DataWrapper.get data png_format ;;
    let (png_handle, data) := r in
    if negb (g_data png_handle =? NULL) then
      match read_png (g_data png_handle) (GLocked_size png_handle) with
      | Some img => ret (Some img, data)
      | None => ret (None, data)
      end
    else ret (None, data)
  else ret (None, data).

(** [getImage]; the wrapper's destructor runs at every [return]. *)
Definition getImage (m_data : IDataObject) (indeterminate : STGMEDIUM)
    : M SurfaceRef :=
  let data := DataWrapper.ctor m_data indeterminate in
  r <- getImage_png data ;;
  let (png, data) := r in
  match png with
  | Some img => DataWrapper.dtor data ;;; ret (makeSurface img)
  | None =>
    r <- DataWrapper.get data CF_DIBV5 ;;
    let (b5, data) := r in
    match (if negb (g_data b5 =? NULL)
           then BitmapInfo_V5_to_image (g_data b5) else None) with
    | Some img => DataWrapper.dtor data ;;; ret (makeSurface img)
    | None =>
      r <- DataWrapper.get data CF_DIB ;;
      let (hbi, data) := r in
      match (if negb (g_data hbi =? NULL)
             then BitmapInfo_to_image (g_data hbi) else None) with
      | Some img => DataWrapper.dtor data ;;; ret (makeSurface img)
      | None =>
        (* No suitable image format found. *)
        DataWrapper.dtor data ;;; ret None
      end
    end
  end.

(** The loop of [contains]; [name] is the content of the buffer
    [char name[101]], which lives across iterations. *)
Fixpoint contains_loop (type : DragDataItemType)
    (formats : list FORMATETC) (name : string) : bool :=
  match formats with
  | [] => false
  | fmt :: formats' =>
    if cfFormat fmt =? CF_HDROP then
      match type with
      | Paths => true
      | _ => contains_loop type formats' name
      end
    else if cfFormat fmt =? CF_DIBV5 then
      match type with
      | Image => true
      | _ => contains_loop type formats' name
      end
    else if cfFormat fmt =? CF_DIB then
      match type with
      | Image => true
      | _ => contains_loop type formats' name
      end
    else
      let (namelen, name) :=
        GetClipboardFormatNameA (cfFormat fmt) name 100 in
      (* name[namelen] = 0 *)
      let name := substring 0 (Z.to_nat namelen) name in
      if String.eqb name "PNG"
         && match type with Image => true | _ => false end
      then true
      else contains_loop type formats' name
  end.

(** [contains]; [name] is the indeterminate initial content of the
    name buffer. *)
Definition contains (m_data : IDataObject) (type : DragDataItemType)
    (name : string) : bool :=
  let (hr, formats) := EnumFormatEtc m_data DATADIR_GET in
  if negb (hr =? S_OK) then false
  else contains_loop type formats name.
End DragDataProviderWin.
End DragDataProviderWin.

(** ** The format-priority chain, in the spec's words

    Follows the spec, not the code: an ordered table of (format, decoder)
    pairs tried in sequence, where the first format that both delivers data
    and decodes wins. *)

Section PriorityChain.
Context {P : Platform}.

Definition content_query (cfmt : CLIPFORMAT) : FORMATETC :=
  {| cfFormat := cfmt;
     ptd := NULL;
     dwAspect := DVASPECT_CONTENT;
     lindex := -1;
     tymed := TYMED_HGLOBAL |}.

(** A format delivers data when its query succeeds and the memory it
    hands out can be locked. *)
Definition delivered (d : IDataObject) (cfmt : CLIPFORMAT)
    : option GLocked :=
  let (hr, medium) := GetData d (content_query cfmt) in
  if hr =? S_OK then
    let g := GLocked_ctor (hGlobal medium) in
    if g_data g =? NULL then None else Some g
  else None.

Definition decode_png (g : GLocked) : option image :=
  read_png (g_data g) (GLocked_size g).

Definition decode_V5 (g : GLocked) : option image :=
  BitmapInfo_V5_to_image (g_data g).

Definition decode_DIB (g : GLocked) : option image :=
  BitmapInfo_to_image (g_data g).

Definition attempt (d : IDataObject) (cfmt : CLIPFORMAT)
    (decode : GLocked -> option image) : option image :=
  match delivered d cfmt with
  | Some g => decode g
  | None => None
  end.

(** The table: PNG (when the name could be registered), then the
    extended bitmap, then the legacy bitmap. *)
Definition image_chain : list (CLIPFORMAT * (GLocked -> option image)) :=
  (if RegisterClipboardFormatA "PNG" =? 0 then []
   else [(RegisterClipboardFormatA "PNG", decode_png)])
  ++ [(CF_DIBV5, decode_V5); (CF_DIB, decode_DIB)].

Fixpoint first_decoded (d : IDataObject)
    (chain : list (CLIPFORMAT * (GLocked -> option image)))
    : option image :=
  match chain with
  | [] => None
  | entry :: rest =>
    match attempt d (fst entry) (snd entry) with
    | Some img => Some img
    | None => first_decoded d rest
    end
  end.

(** The formats tried: every entry up to and including the winner. *)
Fixpoint attempted (d : IDataObject)
    (chain : list (CLIPFORMAT * (GLocked -> option image)))
    : list CLIPFORMAT :=
  match chain with
  | [] => []
  | entry :: rest =>
    match attempt d (fst entry) (snd entry) with
    | Some _ => [fst entry]
    | None => fst entry :: attempted d rest
    end
  end.

Definition getImage_spec (d : IDataObject) : SurfaceRef :=
  match first_decoded d image_chain with
  | Some img => DragDataProviderWin.makeSurface img
  | None => None
  end.
End PriorityChain.

(** ** [DragTargetAdapter], dnd.cpp lines 226-342 *)

(** [os::DragEvent] as the window sees it: the operations on offer, the
    position, and the content provider. *)
Record DragEvent := {
  supportedOperations : Z;
  position : Point;
  dataProvider : DragDataProviderWin.t
}.

(** [os::Window] ([os/window.h], not part of the sources at hand), as it is
    at the moment of one callback.  A notification hands the event to the
    application; what comes back is the event's [dropResult()] afterwards. *)
Record Window := {
  hasDragTarget : bool;
  nativeHandle : HWND;
  notifyDragEnter : DragEvent -> Z;
  notifyDrag : DragEvent -> Z;
  notifyDragLeave : DragEvent -> Z;
  notifyDrop : DragEvent -> Z
}.

Definition ULONG_modulus : Z := 2 ^ 32.

Module DragTargetAdapter.
Section DragTargetAdapter.
Context {E : DropOperationEnum} {P : Platform}.

(** The adapter's members, [m_window] apart: the window is passed to
    each callback as it is when the host calls. *)
Record t := {
  m_ref : Z;
  m_data : option IDataObject;
  m_position : Point
}.

Definition set_m_ref (this : t) (v : Z) : t :=
  {| m_ref := v; m_data := m_data this; m_position := m_position this |}.

Definition set_m_data (this : t) (v : option IDataObject) : t :=
  {| m_ref := m_ref this; m_data := v; m_position := m_position this |}.

Definition set_m_position (this : t) (v : Point) : t :=
  {| m_ref := m_ref this; m_data := m_data this; m_position := v |}.

(** What a session callback leaves behind: the status, the adapter, and
    the value behind [pdwEffect]. *)
Record outcome := {
  status : HRESULT;
  adapter : t;
  effect : DWORD
}.

(** [AddRef]: [InterlockedIncrement] returns the incremented value. *)
Definition AddRef (this : t) : Z * t :=
  let ref := (m_ref this + 1) mod ULONG_modulus in
  (ref, set_m_ref this ref).

(** [Release]: the new count, the adapter, and whether [delete this]
    ran. *)
Definition Release (this : t) : Z * t * bool :=
  let ref := (m_ref this - 1) mod ULONG_modulus in
  let this := set_m_ref this ref in
  if 0 =? ref then (ref, this, true) else (ref, this, false).

Definition DragEnter (m_window : Window) (this : t)
    (pDataObj : option IDataObject) (grfKeyState : DWORD) (pt : POINTL)
    (pdwEffect : DWORD) : outcome :=
  if negb (hasDragTarget m_window) then
    {| status := E_NOTIMPL; adapter := this; effect := pdwEffect |}
  else
    let this := set_m_data this pDataObj in
    match m_data this with
    | None =>
      {| status := E_UNEXPECTED; adapter := this; effect := pdwEffect |}
    | Some _ =>
      let this :=
        set_m_position this (drag_position (nativeHandle m_window) pt) in
      let ddProvider := {| DragDataProviderWin.m_data := m_data this |} in
      let ev := {| supportedOperations := as_dropoperation pdwEffect;
                   position := m_position this;
                   dataProvider := ddProvider |} in
      let dropResult := notifyDragEnter m_window ev in
      {| status := S_OK;
         adapter := this;
         effect := as_dropeffect dropResult |}
    end.

Definition DragOver (m_window : Window) (this : t)
    (grfKeyState : DWORD) (pt : POINTL) (pdwEffect : DWORD) : outcome :=
  if negb (hasDragTarget m_window) then
    {| status := E_NOTIMPL; adapter := this; effect := pdwEffect |}
  else
    let this :=
      set_m_position this (drag_position (nativeHandle m_window) pt) in
    let ddProvider := {| DragDataProviderWin.m_data := m_data this |} in
    let ev := {| supportedOperations := as_dropoperation pdwEffect;
                 position := m_position this;
                 dataProvider := ddProvider |} in
    let dropResult := notifyDrag m_window ev in
    {| status := S_OK;
       adapter := this;
       effect := as_dropeffect dropResult |}.

(** [DragLeave] carries no effect: the status and the adapter. *)
Definition DragLeave (m_window : Window) (this : t) : HRESULT * t :=
  if negb (hasDragTarget m_window) then (E_NOTIMPL, this)
  else
    let ddProvider := {| DragDataProviderWin.m_data := m_data this |} in
    let ev := {| supportedOperations := DropOperation_None;
                 position := m_position this;
                 dataProvider := ddProvider |} in
    let _ := notifyDragLeave m_window ev in
    let this := set_m_data this None in
    (S_OK, this).

Definition Drop (m_window : Window) (this : t)
    (pDataObj : option IDataObject) (grfKeyState : DWORD) (pt : POINTL)
    (pdwEffect : DWORD) : outcome :=
  if negb (hasDragTarget m_window) then
    {| status := E_NOTIMPL; adapter := this; effect := pdwEffect |}
  else
    let this := set_m_data this pDataObj in
    match m_data this with
    | None =>
      {| status := E_UNEXPECTED; adapter := this; effect := pdwEffect |}
    | Some _ =>
      let this :=
        set_m_position this (drag_position (nativeHandle m_window) pt) in
      let ddProvider := {| DragDataProviderWin.m_data := m_data this |} in
      let ev := {| supportedOperations := as_dropoperation pdwEffect;
                   position := m_position this;
                   dataProvider := ddProvider |} in
      let dropResult := notifyDrop m_window ev in
      let this := set_m_data this None in
      {| status := S_OK;
         adapter := this;
         effect := as_dropeffect dropResult |}
    end.

(** Modelled from the spec: the adapter between sessions, as the member
    initialisers of [os/win/dnd.h] (not under src/) leave it; the Idle
    state holds no transfer object, and its position is the default
    [gfx::Point]. *)
Definition idle (ref : Z) : t :=
  {| m_ref := ref; m_data := None; m_position := {| x := 0; y := 0 |} |}.
End DragTargetAdapter.
End DragTargetAdapter.

(** ** Histories of [AddRef] and [Release]

    [InterlockedIncrement] and [InterlockedDecrement] are atomic, so the
    calls of several threads take effect one after the other, in some
    interleaving of the threads' own sequences. *)

Inductive refcall := CallAddRef | CallRelease.

(** One finished call: which it was, the count it found, the value it
    returned, the count it left, and whether it ran [delete this]. *)
Record refcall_record := {
  rc_call : refcall;
  rc_before : Z;
  rc_returned : Z;
  rc_after : Z;
  rc_deleted : bool
}.

Inductive interleaving {A : Type} : list A -> list A -> list A -> Prop :=
| interleaving_nil : interleaving [] [] []
| interleaving_left a t1 t2 h :
    interleaving t1 t2 h -> interleaving (a :: t1) t2 (a :: h)
| interleaving_right a t1 t2 h :
    interleaving t1 t2 h -> interleaving t1 (a :: t2) (a :: h).

Section RefCount.
Definition refcall_run (this : DragTargetAdapter.t) (c : refcall)
    : refcall_record * DragTargetAdapter.t :=
  match c with
  | CallAddRef =>
    let (ref, this') := DragTargetAdapter.AddRef this in
    ({| rc_call := c; rc_before := DragTargetAdapter.m_ref this;
        rc_returned := ref; rc_after := DragTargetAdapter.m_ref this';
        rc_deleted := false |}, this')
  | CallRelease =>
    let '(ref, this', deleted) := DragTargetAdapter.Release this in
    ({| rc_call := c; rc_before := DragTargetAdapter.m_ref this;
        rc_returned := ref; rc_after := DragTargetAdapter.m_ref this';
        rc_deleted := deleted |}, this')
  end.

Fixpoint history_run (this : DragTargetAdapter.t) (h : list refcall)
    : list refcall_record * DragTargetAdapter.t :=
  match h with
  | [] => ([], this)
  | c :: h' =>
    let (r, this') := refcall_run this c in
    let (rs, this'') := history_run this' h' in
    (r :: rs, this'')
  end.

Definition destructions (log : list refcall_record) : nat :=
  List.length (filter rc_deleted log).

Definition releases_seeing_zero (log : list refcall_record) : nat :=
  List.length
    (filter (fun r => match rc_call r with
                      | CallRelease => rc_returned r =? 0
                      | CallAddRef => false
                      end) log).

(** A history in which every call finds a live adapter: the count is a
    [ULONG]; no [Release] finds the count at zero; the count does not
    overflow; and the call that deletes the adapter is the last. *)
Fixpoint lawful (this : DragTargetAdapter.t) (h : list refcall) : Prop :=
  match h with
  | [] => True
  | c :: h' =>
    0 <= DragTargetAdapter.m_ref this < ULONG_modulus
    /\ match c with
       | CallAddRef => DragTargetAdapter.m_ref this + 1 < ULONG_modulus
       | CallRelease => 1 <= DragTargetAdapter.m_ref this
       end
    /\ (rc_deleted (fst (refcall_run this c)) = true -> h' = [])
    /\ lawful (snd (refcall_run this c)) h'
  end.
End RefCount.

(** ** [WintabAPI::mapCursorButton], wintab.cpp lines 207-273 *)

Module WintabAPI.
(** Wintab constants ([wintab.h]). *)
Definition TBN_NONE : Z := 0.
Definition TBN_UP : Z := 1.
Definition TBN_DOWN : Z := 2.

Definition SBN_NONE : Z := 0x00.
Definition SBN_LCLICK : Z := 0x01.
Definition SBN_LDBLCLICK : Z := 0x02.
Definition SBN_LDRAG : Z := 0x03.
Definition SBN_RCLICK : Z := 0x04.
Definition SBN_RDBLCLICK : Z := 0x05.
Definition SBN_RDRAG : Z := 0x06.
Definition SBN_MCLICK : Z := 0x07.
Definition SBN_MDBLCLICK : Z := 0x08.
Definition SBN_MDRAG : Z := 0x09.

Definition WTI_CURSORS : Z := 200.
Definition CSR_SYSBTNMAP : Z := 8.

(** The members of [os::Event::Type] and [os::Event::MouseButton] that
    the function assigns. *)
Inductive Event_Type :=
| MouseMove | MouseDown | MouseUp | MouseDoubleClick.

Inductive Event_MouseButton :=
| NoneButton | LeftButton | RightButton | MiddleButton.

(** Reading element [i] of a C array; [None] is a read outside it. *)
Definition array_read (a : list Z) (i : Z) : option Z :=
  if i <? 0 then None else nth_error a (Z.to_nat i).

(** The two out-parameters, and the index at which [map] was read, if
    it was read. *)
Record outcome := {
  evType : Event_Type;
  mouseButton : Event_MouseButton;
  map_read_at : option Z
}.

Section mapCursorButton.
(** [WTInfo(category, CSR_SYSBTNMAP, &map)]: the content of
    [BYTE map[32]] afterwards. *)
Variable WTInfo : Z -> Z -> list Z.

Definition first_switch (relativeButton : Z) : Event_Type :=
  if relativeButton =? TBN_DOWN then MouseDown
  else if relativeButton =? TBN_UP then MouseUp
  else MouseMove.

(** The second [switch], with its fall-throughs. *)
Definition second_switch (action : Z) (evType : Event_Type)
    (mouseButton : Event_MouseButton)
    : Event_Type * Event_MouseButton :=
  if action =? SBN_LDBLCLICK then (MouseDoubleClick, LeftButton)
  else if (action =? SBN_LCLICK) || (action =? SBN_LDRAG)
  then (evType, LeftButton)
  else if action =? SBN_RDBLCLICK then (MouseDoubleClick, RightButton)
  else if (action =? SBN_RCLICK) || (action =? SBN_RDRAG)
  then (evType, RightButton)
  else if action =? SBN_MDBLCLICK then (MouseDoubleClick, MiddleButton)
  else if (action =? SBN_MCLICK) || (action =? SBN_MDRAG)
  then (evType, MiddleButton)
  else (evType, mouseButton).

(** [None] is undefined behaviour: a read outside [map]. *)
Definition mapCursorButton (cursor logicalButton relativeButton : Z)
    : option outcome :=
  let mouseButton := NoneButton in
  let evType := first_switch relativeButton in
  (* Invalid logical button *)
  if (logicalButton <? 0) || (logicalButton >=? 32) then
    Some {| evType := evType;
            mouseButton := mouseButton;
            map_read_at := None |}
  else
    let map := WTInfo (WTI_CURSORS + cursor) CSR_SYSBTNMAP in
    match array_read map logicalButton with
    | None => None
    | Some action =>
      let (evType, mouseButton) :=
        second_switch action evType mouseButton in
      Some {| evType := evType;
              mouseButton := mouseButton;
              map_read_at := Some logicalButton |}
    end.
End mapCursorButton.
End WintabAPI.

(** ** Concrete collaborators on which the model is run *)

(** A platform where a handle locks to itself, "PNG" is registered as
    format 0xC001, only the legacy bitmap decoder succeeds, and the
    window's client area starts at (100, 50) on the screen. *)
Definition sample_image (p : LPVOID) : image :=
  {| spec := {| width := 2; height := 2; bits_per_pixel := 32;
                red_mask := 0xFF0000; green_mask := 0xFF00;
                blue_mask := 0xFF; alpha_mask := 0xFF000000;
                red_shift := 16; green_shift := 8;
                blue_shift := 0; alpha_shift := 24 |};
     data := p |}.

Definition sample_platform : Platform :=
  {| GlobalLock := fun h => h;
     GlobalSize := fun _ => 64;
     RegisterClipboardFormatA :=
       fun s => if String.eqb s "PNG" then 0xC001 else 0xC002;
     registered_name :=
       fun f => if f =? 0xC001 then Some "PNG"%string else None;
     read_png := fun _ _ => None;
     BitmapInfo_V5_to_image := fun _ => None;
     BitmapInfo_to_image := fun p => Some (sample_image p);
     System_makeSurface := fun _ _ _ data => Some data;
     ScreenToClient :=
       fun _ pt => {| pt_x := pt_x pt - 100; pt_y := pt_y pt - 50 |} |}.

Definition sample_format (cfmt : CLIPFORMAT) : FORMATETC :=
  {| cfFormat := cfmt; ptd := NULL; dwAspect := DVASPECT_CONTENT;
     lindex := -1; tymed := TYMED_HGLOBAL |}.

(** A transfer object advertising PNG and both bitmaps, in that order; the
    medium of format [f] has handle [0x1000 + f]. *)
Definition sample_data : IDataObject :=
  {| GetData := fun fmt =>
       if (cfFormat fmt =? 0xC001) || (cfFormat fmt =? CF_DIBV5)
          || (cfFormat fmt =? CF_DIB)
       then (S_OK, {| medium_tymed := TYMED_HGLOBAL;
                      hGlobal := 0x1000 + cfFormat fmt |})
       else (0x80040064 - 2 ^ 32,
             {| medium_tymed := TYMED_NULL; hGlobal := NULL |});
     EnumFormatEtc := fun _ =>
       (S_OK, [sample_format 0xC001; sample_format CF_DIBV5;
               sample_format CF_DIB]) |}.

(** A window with a drag target that accepts a copy, and the same window
    once its drag target is gone. *)
Definition sample_window : Window :=
  {| hasDragTarget := true;
     nativeHandle := 0x20;
     notifyDragEnter := fun _ => 1;
     notifyDrag := fun _ => 1;
     notifyDragLeave := fun _ => 1;
     notifyDrop := fun _ => 1 |}.

Definition sample_window_without_target : Window :=
  {| hasDragTarget := false;
     nativeHandle := 0x20;
     notifyDragEnter := fun _ => 1;
     notifyDrag := fun _ => 1;
     notifyDragLeave := fun _ => 1;
     notifyDrop := fun _ => 1 |}.

(** ** The claims that fail, as they are written *)

(** The claim C1 as it is written, at one call of each callback. *)
Definition null_rejected_untouched {E : DropOperationEnum} {P : Platform}
    (w : Window) (a : DragTargetAdapter.t) (grf : DWORD) (pt : POINTL)
    (eff : DWORD) : Prop :=
  let enter := DragTargetAdapter.DragEnter w a None grf pt eff in
  let drop := DragTargetAdapter.Drop w a None grf pt eff in
  (DragTargetAdapter.status enter = E_UNEXPECTED
   /\ DragTargetAdapter.adapter enter = a)
  /\ (DragTargetAdapter.status drop = E_UNEXPECTED
      /\ DragTargetAdapter.adapter drop = a).

(** An adapter in the middle of a session over [sample_data]. *)
Definition sample_entered : DragTargetAdapter.t :=
  {| DragTargetAdapter.m_ref := 1;
     DragTargetAdapter.m_data := Some sample_data;
     DragTargetAdapter.m_position := {| x := 5; y := 7 |} |}.


(** The claim C2 as it is written: after Enter with a transfer object and
    Leave, the adapter is the Idle adapter it started as. *)
Definition enter_leave_restores_idle {E : DropOperationEnum} {P : Platform}
    (w1 w2 : Window) (ref : Z) (d : IDataObject) (grf : DWORD) (pt : POINTL)
    (eff : DWORD) : Prop :=
  let entered :=
    DragTargetAdapter.adapter
      (DragTargetAdapter.DragEnter w1 (DragTargetAdapter.idle ref)
         (Some d) grf pt eff) in
  snd (DragTargetAdapter.DragLeave w2 entered) = DragTargetAdapter.idle ref.

(** The claim C3 as it is written: after Enter and Drop the adapter holds
    no transfer object. *)
Definition enter_drop_releases {E : DropOperationEnum} {P : Platform}
    (w1 w2 : Window) (a : DragTargetAdapter.t)
    (pDataObj1 pDataObj2 : option IDataObject)
    (grf1 grf2 : DWORD) (pt1 pt2 : POINTL) (eff1 eff2 : DWORD) : Prop :=
  let entered :=
    DragTargetAdapter.adapter
      (DragTargetAdapter.DragEnter w1 a pDataObj1 grf1 pt1 eff1) in
  DragTargetAdapter.m_data
    (DragTargetAdapter.adapter
       (DragTargetAdapter.Drop w2 entered pDataObj2 grf2 pt2 eff2))
  = None.

(** ** One medium at a time *)

(** At every instant of a trace at most one medium is alive, and every
    format query is issued while none is. *)
Definition one_medium_at_a_time (tr : trace) : Prop :=
  (forall n, (List.length (live_media (firstn n tr)) <= 1)%nat)
  /\ (forall n fmt hr medium,
        nth_error tr n = Some (EvGetData fmt hr medium) ->
        live_media (firstn n tr) = []).

(** What a wrapper holds according to its own fields. *)
Definition held (this : DataWrapper.t) : list STGMEDIUM :=
  if DataWrapper.m_result this =? S_OK
  then [DataWrapper.m_medium this] else [].

Definition sample_indeterminate : STGMEDIUM :=
  {| medium_tymed := 0xCC; hGlobal := 0xCCCC |}.

(** The wrapper's fields tell the truth about the trace. *)
Definition in_step (this : DataWrapper.t) (tr : trace) : Prop :=
  one_medium_at_a_time tr /\ live_media tr = held this.

(** ** What a transfer object advertises *)

(** A format that stands for an image: one of the two bitmaps, or one
    registered under the name "PNG". *)
Definition image_format {P : Platform} (fmt : FORMATETC) : Prop :=
  cfFormat fmt = CF_DIBV5
  \/ cfFormat fmt = CF_DIB
  \/ registered_name (cfFormat fmt) = Some "PNG"%string.

Definition file_list_format (fmt : FORMATETC) : Prop :=
  cfFormat fmt = CF_HDROP.

(** ** Reading the log of a history *)

(** A call that neither saw zero nor deleted the adapter. *)
Definition quiet (r : refcall_record) : Prop :=
  rc_deleted r = false /\ rc_returned r <> 0.

(** A call returned the new count: one more than it found for [AddRef],
    one less for [Release]. *)
Definition returned_new_count (r : refcall_record) : Prop :=
  rc_returned r = match rc_call r with
                  | CallAddRef => rc_before r + 1
                  | CallRelease => rc_before r - 1
                  end.

(** What every call does, lawful or not: it returns the count it leaves,
    which is the count it found plus or minus one as a [ULONG]; and the
    adapter is deleted by it exactly when it is a [Release] that returns
    zero. *)
Definition counted (r : refcall_record) : Prop :=
  rc_returned r = rc_after r
  /\ rc_after r = match rc_call r with
                  | CallAddRef => (rc_before r + 1) mod ULONG_modulus
                  | CallRelease => (rc_before r - 1) mod ULONG_modulus
                  end
  /\ (rc_deleted r = true
      <-> rc_call r = CallRelease /\ rc_returned r = 0).

(** A system button map whose 32 entries all say "left click". *)
Definition sample_WTInfo (category index : Z) : list Z :=
  repeat WintabAPI.SBN_LCLICK 32.

(** ** Threads and the references they hold *)

(** COM's rule for one thread that holds [held] references to the
    adapter: it calls [AddRef] only through a reference it holds, and it
    releases only a reference it holds. *)
Fixpoint disciplined (held : nat) (t : list refcall) : Prop :=
  match t with
  | [] => True
  | CallAddRef :: t' => (1 <= held)%nat /\ disciplined (S held) t'
  | CallRelease :: t' => (1 <= held)%nat /\ disciplined (held - 1) t'
  end.

(** The references the thread holds when it has made its calls. *)
Fixpoint held_after (held : nat) (t : list refcall) : nat :=
  match t with
  | [] => held
  | CallAddRef :: t' => held_after (S held) t'
  | CallRelease :: t' => held_after (held - 1) t'
  end.

(** The claim C9 as it is written, for the calls [t1] and [t2] of two
    threads taking effect in the order [h]: when the count ends at zero,
    exactly one [Release] saw zero and the adapter was deleted once. *)
Definition zero_seen_once (this : DragTargetAdapter.t)
    (t1 t2 h : list refcall) : Prop :=
  interleaving t1 t2 h ->
  DragTargetAdapter.m_ref (snd (history_run this h)) = 0 ->
  releases_seeing_zero (fst (history_run this h)) = 1%nat
  /\ destructions (fst (history_run this h)) = 1%nat.

(** Two threads on an adapter whose count is 1.  The second holds that
    one reference; it takes another and gives both back.  The first holds
    none, and yet takes one and gives it back. *)
Definition sample_thread1 : list refcall := [CallAddRef; CallRelease].

Definition sample_thread2 : list refcall :=
  [CallAddRef; CallRelease; CallRelease].

(** The second thread runs to its end before the first starts. *)
Definition sample_race : list refcall :=
  [CallAddRef; CallRelease; CallRelease; CallAddRef; CallRelease].

(** Two threads that hold one reference each, take another, and give
    both back; and one order in which their calls may take effect. *)
Definition sample_owner : list refcall :=
  [CallAddRef; CallRelease; CallRelease].

Definition sample_history : list refcall :=
  [CallAddRef; CallAddRef; CallRelease; CallRelease; CallRelease;
   CallRelease].

(** * The rest of [os/win/dnd.cpp] *)

(** ** [DragTargetAdapter::QueryInterface], dnd.cpp lines 226-238 *)

Definition E_INVALIDARG : HRESULT := 0x80070057 - 2 ^ 32.
Definition E_NOINTERFACE : HRESULT := 0x80004002 - 2 ^ 32.
Definition NOERROR : HRESULT := 0.

(** Interface identifiers, as 128-bit numbers. *)
Definition IID_IUnknown : Z := 0x00000000_0000_0000_C000_000000000046.
Definition IID_IDropTarget : Z := 0x00000122_0000_0000_C000_000000000046.

(** What the slot behind [ppv] can hold: null, the adapter itself, or
    whatever was there before the call. *)
Inductive interface_pointer :=
| pointer_null
| pointer_this
| pointer_other (address : Z).

(** [ppv] is [None] when the caller passes a null [ppv], else the content
    of the slot; the result carries the slot's content afterwards. *)
Definition QueryInterface (this : DragTargetAdapter.t) (riid : Z)
    (ppv : option interface_pointer)
    : HRESULT * DragTargetAdapter.t * option interface_pointer :=
  match ppv with
  | None => (E_INVALIDARG, this, None)
  | Some _ =>
    let ppv := Some pointer_null in
    if negb (riid =? IID_IDropTarget) && negb (riid =? IID_IUnknown)
    then (E_NOINTERFACE, this, ppv)
    else
      let ppv := Some pointer_this in
      let (_, this) := DragTargetAdapter.AddRef this in
      (NOERROR, this, ppv)
  end.

(** ** [DragDataProviderWin::getPaths], dnd.cpp lines 123-142 *)

(** The value of a [UINT] once stored in an [int]. *)
Definition to_int (z : Z) : Z := (z + 2 ^ 31) mod 2 ^ 32 - 2 ^ 31.

(** A wide-character buffer read as a C string: what precedes the first
    null character. *)
Fixpoint c_wstr (buffer : list Z) : list Z :=
  match buffer with
  | [] => []
  | c :: rest => if c =? 0 then [] else c :: c_wstr rest
  end.

(** The shell and [base::to_utf8].  [DragQueryFile hdrop iFile lpszFile cch]
    takes the buffer's content ([None] for a null buffer) and yields the
    returned number and the buffer's content afterwards (of no meaning
    when there is no buffer). *)
Class Shell := {
  DragQueryFile : LPVOID -> Z -> option (list Z) -> Z -> Z * list Z;
  to_utf8 : list Z -> string
}.

Section getPaths.
Context {P : Platform} {Sh : Shell}.
Local Open Scope dnd_scope.

(** One turn of the [for] loop, for the entry at [index]. *)
Definition getPaths_entry (hdrop : LPVOID) (index : Z) (files : list string)
    : list string :=
  let length := to_int (fst (DragQueryFile hdrop index None 0)) in
  if 0 <? length then
    let str := repeat 0 (Z.to_nat (length + 1)) in
    let (_, str) := DragQueryFile hdrop index (Some str) (length + 1) in
    files ++ [to_utf8 (c_wstr str)]
  else files.

(** The turns for [index], [index + 1], ... while [index < count]; [turns]
    is the number of them left. *)
Fixpoint getPaths_loop (hdrop : LPVOID) (index : Z) (turns : nat)
    (files : list string) : list string :=
  match turns with
  | O => files
  | S turns' =>
    getPaths_loop hdrop (index + 1) turns'
      (getPaths_entry hdrop index files)
  end.

Definition getPaths (m_data : IDataObject) (indeterminate : STGMEDIUM)
    : M (list string) :=
  let files := [] in
  let data := DataWrapper.ctor m_data indeterminate in
  r <- DataWrapper.get data CF_HDROP ;;
  let (hdrop, data) := r in
  let files :=
    if negb (g_data hdrop =? NULL) then
      let count :=
        to_int (fst (DragQueryFile (g_data hdrop) 0xFFFFFFFF None 0)) in
      getPaths_loop (g_data hdrop) 0 (Z.to_nat count) files
    else files in
  DataWrapper.dtor data ;;; ret files.

(** Follows the loop's intent, not its text: the names of the entries
    [0 .. count-1] whose reported length is positive, in that order. *)
Definition entry_length (hdrop : LPVOID) (index : Z) : Z :=
  to_int (fst (DragQueryFile hdrop index None 0)).

Definition entry_name (hdrop : LPVOID) (index : Z) : string :=
  to_utf8
    (c_wstr
       (snd (DragQueryFile hdrop index
               (Some (repeat 0 (Z.to_nat (entry_length hdrop index + 1))))
               (entry_length hdrop index + 1)))).

Definition listed_paths (hdrop : LPVOID) (count : Z) : list string :=
  map (fun i => entry_name hdrop (Z.of_nat i))
      (filter (fun i => 0 <? entry_length hdrop (Z.of_nat i))
              (seq 0 (Z.to_nat count))).
End getPaths.

(** ** Sequences of session callbacks *)

Inductive callback :=
| CallDragEnter (m_window : Window) (pDataObj : option IDataObject)
    (grfKeyState : DWORD) (pt : POINTL) (pdwEffect : DWORD)
| CallDragOver (m_window : Window)
    (grfKeyState : DWORD) (pt : POINTL) (pdwEffect : DWORD)
| CallDragLeave (m_window : Window)
| CallDrop (m_window : Window) (pDataObj : option IDataObject)
    (grfKeyState : DWORD) (pt : POINTL) (pdwEffect : DWORD).

Section Sessions.
Context {E : DropOperationEnum} {P : Platform}.

(** One callback: the status and the adapter afterwards. *)
Definition callback_run (this : DragTargetAdapter.t) (c : callback)
    : HRESULT * DragTargetAdapter.t :=
  match c with
  | CallDragEnter w pDataObj grf pt eff =>
    let r := DragTargetAdapter.DragEnter w this pDataObj grf pt eff in
    (DragTargetAdapter.status r, DragTargetAdapter.adapter r)
  | CallDragOver w grf pt eff =>
    let r := DragTargetAdapter.DragOver w this grf pt eff in
    (DragTargetAdapter.status r, DragTargetAdapter.adapter r)
  | CallDragLeave w => DragTargetAdapter.DragLeave w this
  | CallDrop w pDataObj grf pt eff =>
    let r := DragTargetAdapter.Drop w this pDataObj grf pt eff in
    (DragTargetAdapter.status r, DragTargetAdapter.adapter r)
  end.

(** The adapter after the host has made the calls, in order. *)
Definition session_run (this : DragTargetAdapter.t) (cs : list callback)
    : DragTargetAdapter.t :=
  fold_left (fun a c => snd (callback_run a c)) cs this.

(** The transfer objects the host handed to [DragEnter]. *)
Fixpoint entered_objects (cs : list callback) : list IDataObject :=
  match cs with
  | [] => []
  | CallDragEnter _ (Some d) _ _ _ :: cs' => d :: entered_objects cs'
  | _ :: cs' => entered_objects cs'
  end.

(** The window of a callback, and whether the callback ends a session. *)
Definition callback_window (c : callback) : Window :=
  match c with
  | CallDragEnter w _ _ _ _ => w
  | CallDragOver w _ _ _ => w
  | CallDragLeave w => w
  | CallDrop w _ _ _ _ => w
  end.

Definition ends_session (c : callback) : bool :=
  match c with
  | CallDragLeave _ | CallDrop _ _ _ _ _ => true
  | _ => false
  end.
End Sessions.

(** A shell whose drop handle lists three entries, the middle one of
    length zero; entry [i] is named by the single character [65 + i]. *)
Definition sample_shell : Shell :=
  {| DragQueryFile := fun _ iFile lpszFile cch =>
       if iFile =? 0xFFFFFFFF then (3, [])
       else match lpszFile with
            | None => (if iFile =? 1 then 0 else 1, [])
            | Some _ => (1, [65 + iFile; 0])
            end;
     to_utf8 := fun w =>
       string_of_list_ascii (map (fun c => ascii_of_nat (Z.to_nat c)) w) |}.

(** A transfer object that carries only a file list. *)
Definition sample_files : IDataObject :=
  {| GetData := fun fmt =>
       if cfFormat fmt =? CF_HDROP
       then (S_OK, {| medium_tymed := TYMED_HGLOBAL; hGlobal := 0x2000 |})
       else (0x80040064 - 2 ^ 32,
             {| medium_tymed := TYMED_NULL; hGlobal := NULL |});
     EnumFormatEtc := fun _ => (S_OK, [sample_format CF_HDROP]) |}.

(** * The rest of [os/win/wintab.cpp] *)

Module Wintab.

(** Wintab constants ([wintab.h]). *)
Definition WTI_INTERFACE : Z := 1.
Definition WTI_DEFSYSCTX : Z := 4.
Definition WTI_DEVICES : Z := 100.
Definition DVC_NPRESSURE : Z := 15.
Definition CXO_SYSTEM : Z := 0x0001.
Definition CXO_PEN : Z := 0x0002.
Definition CXO_MESSAGES : Z := 0x0004.
Definition CXO_CSRMESSAGES : Z := 0x0008.
Definition sizeof_AXIS : Z := 16.

Definition HCTX := Z.
Definition HMODULE := Z.

(** [LOGCONTEXTW]: the fields [open] writes or copies into members, and
    the others, which it only passes on, as one. *)
Record LOGCONTEXTW := {
  lcOptions : Z;
  lcPktData : Z;
  lcPktMode : Z;
  lcMoveMask : Z;
  lcOutOrgX : Z;
  lcOutOrgY : Z;
  lcOutExtX : Z;
  lcOutExtY : Z;
  lcOthers : list Z
}.

(** [memset(&logctx, 0, sizeof(LOGCONTEXTW))]; [others] is the number of
    the other fields. *)
Definition LOGCONTEXTW_zero (others : nat) : LOGCONTEXTW :=
  {| lcOptions := 0; lcPktData := 0; lcPktMode := 0; lcMoveMask := 0;
     lcOutOrgX := 0; lcOutOrgY := 0; lcOutExtX := 0; lcOutExtY := 0;
     lcOthers := repeat 0 others |}.

Record AXIS := {
  axMin : Z;
  axMax : Z;
  axUnits : Z;
  axResolution : Z
}.

(** [gfx::Rect]. *)
Record Rect := { rect_x : Z; rect_y : Z; rect_w : Z; rect_h : Z }.

(** The function pointers that [loadWintab] fills; [true] is a pointer
    that is not null. *)
Record procs := {
  WTInfo : bool;
  WTOpen : bool;
  WTClose : bool;
  WTPacketsGet : bool;
  WTPacket : bool;
  WTOverlap : bool;
  WTQueueSizeGet : bool;
  WTQueueSizeSet : bool
}.

Definition no_procs : procs :=
  {| WTInfo := false; WTOpen := false; WTClose := false;
     WTPacketsGet := false; WTPacket := false; WTOverlap := false;
     WTQueueSizeGet := false; WTQueueSizeSet := false |}.

(** What the code asks of [base], of the DLL and of the tablet driver.
    The driver has a state of its own, which [WTOpen], [WTClose] and
    [WTQueueSizeSet] may change.  [PACKETDATA] and [PACKETMODE] are macros
    of [os/win/wintab.h], which is not part of the sources at hand. *)
Class Tablet := {
  driver : Type;
  PACKETDATA : Z;
  PACKETMODE : Z;
  (** [base::load_dll]; [None] is a null handle *)
  load_dll : string -> option HMODULE;
  get_dll_filename : HMODULE -> string;
  is_file : string -> bool;
  (** the SHA-1 of a file, as [base::convert_to<std::string>] prints it *)
  Sha1_calculateFromFile : string -> string;
  (** [base::get_dll_proc]: whether the DLL exports the name *)
  get_dll_proc : HMODULE -> string -> bool;
  (** [WTInfo(WTI_DEFSYSCTX, 0, &logctx)]: the returned size and the
      context afterwards *)
  WTInfo_DEFSYSCTX : LOGCONTEXTW -> Z * LOGCONTEXTW;
  (** [WTInfo(WTI_DEVICES, DVC_NPRESSURE, &pressure)] *)
  WTInfo_NPRESSURE : AXIS -> Z * AXIS;
  do_WTOpen : driver -> HWND -> LOGCONTEXTW -> Z -> HCTX * driver;
  do_WTClose : driver -> HCTX -> Z * driver;
  do_WTQueueSizeGet : driver -> HCTX -> Z;
  do_WTQueueSizeSet : driver -> HCTX -> Z -> Z * driver
}.

(** Calls that leave a mark outside the API object. *)
Inductive event :=
| EvLoadDll (name : string)
| EvUnloadDll (lib : HMODULE)
| EvWTOpen (hwnd : HWND) (logctx : LOGCONTEXTW) (enable : Z)
| EvWTClose (ctx : HCTX)
| EvWTQueueSizeSet (ctx : HCTX) (size : Z) (result : Z).

Section Wintab.
Context {T : Tablet}.

(** The members of [WintabAPI]. *)
Record t := {
  m_wintabLib : option HMODULE;
  m_outBounds : Rect;
  m_minPressure : Z;
  m_maxPressure : Z;
  m_queueSize : Z
}.

Definition set_m_wintabLib (this : t) (v : option HMODULE) : t :=
  {| m_wintabLib := v; m_outBounds := m_outBounds this;
     m_minPressure := m_minPressure this;
     m_maxPressure := m_maxPressure this;
     m_queueSize := m_queueSize this |}.

(** The API object, the function pointers of the anonymous namespace, the
    driver, and the calls made so far. *)
Record world := {
  api : t;
  fns : procs;
  drv : driver;
  log : list event
}.

(** [checkDll], wintab.cpp lines 311-328, for the library [lib]. *)
Definition checkDll (lib : HMODULE) : bool :=
  let fn := get_dll_filename lib in
  if negb (is_file fn) then false
  else
    let checksum := Sha1_calculateFromFile fn in
    (* Ugly hack to bypass the buggy WALTOP International Corp .dll *)
    if String.eqb checksum "a3ba0d9c0f5d8b9f4070981b243a80579f8be105"
    then false
    else true.

(** [loadWintab], wintab.cpp lines 275-309. *)
Definition loadWintab (w : world) : bool * world :=
  let lib := load_dll "wintab32.dll" in
  let w := {| api := set_m_wintabLib (api w) lib; fns := fns w;
              drv := drv w; log := log w ++ [EvLoadDll "wintab32.dll"] |} in
  match lib with
  | None => (false, w)
  | Some h =>
    if negb (checkDll h) then
      (false, {| api := set_m_wintabLib (api w) None; fns := fns w;
                 drv := drv w; log := log w ++ [EvUnloadDll h] |})
    else
      let f := {| WTInfo := get_dll_proc h "WTInfoW";
                  WTOpen := get_dll_proc h "WTOpenW";
                  WTClose := get_dll_proc h "WTClose";
                  WTPacketsGet := get_dll_proc h "WTPacketsGet";
                  WTPacket := get_dll_proc h "WTPacket";
                  WTOverlap := get_dll_proc h "WTOverlap";
                  WTQueueSizeGet := get_dll_proc h "WTQueueSizeGet";
                  WTQueueSizeSet := get_dll_proc h "WTQueueSizeSet" |} in
      let w := {| api := api w; fns := f; drv := drv w; log := log w |} in
      if negb (WTInfo f) || negb (WTOpen f) || negb (WTClose f)
         || negb (WTPacket f) || negb (WTQueueSizeGet f)
         || negb (WTQueueSizeSet f)
      then (false, w)
      else (true, w)
  end.

(** The destructor, wintab.cpp lines 56-63. *)
Definition dtor (w : world) : world :=
  match m_wintabLib (api w) with
  | None => w
  | Some h =>
    {| api := set_m_wintabLib (api w) None; fns := fns w; drv := drv w;
       log := log w ++ [EvUnloadDll h] |}
  end.

(** [close], wintab.cpp lines 182-190; [None] is a call through a null
    function pointer. *)
Definition close (w : world) (ctx : HCTX) : option world :=
  if truthy ctx then
    if WTClose (fns w) then
      let (_, d) := do_WTClose (drv w) ctx in
      Some {| api := api w; fns := fns w; drv := d;
              log := log w ++ [EvWTClose ctx] |}
    else None
  else Some w.

(** The least [int]. *)
Definition INT_MIN : Z := - 2 ^ 31.

(** The [for] loop of [open] that enlarges the queue: [r] is the size to
    ask for next, [turns] bounds the number of turns left.  [r] is an
    [int]: [None] is the overflow of [r -= 8], which is undefined. *)
Fixpoint queue_loop (ctx : HCTX) (q r : Z) (turns : nat)
    (d : driver) (l : list event) : option (driver * list event) :=
  match turns with
  | O => Some (d, l)
  | S turns' =>
    if r >=? q then
      let (res, d') := do_WTQueueSizeSet d ctx r in
      let l' := l ++ [EvWTQueueSizeSet ctx r res] in
      if truthy res then Some (d', l')
      else if r - 8 <? INT_MIN then None
      else queue_loop ctx q (r - 8) turns' d' l'
    else Some (d, l)
  end.

(** Turns enough for the loop to end by its own test: [r] starts at 128
    and loses 8 each turn while [r >= q]. *)
Definition queue_turns (q : Z) : nat := Z.to_nat ((128 - q) / 8 + 1).

(** The context options that [open] asks for. *)
Definition open_options (lcOptions : Z) (moveMouse : bool) : Z :=
  let lcOptions :=
    if moveMouse then Z.lor lcOptions CXO_SYSTEM
    else Z.land lcOptions (Z.lnot CXO_SYSTEM) in
  Z.lor lcOptions (Z.lor CXO_MESSAGES CXO_CSRMESSAGES).

(** [open], wintab.cpp lines 65-180.  The [LOG] statements are left out;
    the [WTInfo] queries made only to fill them are calls through the
    [WTInfo] pointer all the same.  [others] is the number of the fields
    of [LOGCONTEXTW] that are only passed on, [pressure] the indeterminate
    initial content of the local [AXIS].  [None] is a call through a null
    function pointer, or the overflow of the loop variable [r]. *)
Definition open (w : world) (hwnd : HWND) (moveMouse : bool)
    (others : nat) (pressure : AXIS) : option (HCTX * world) :=
  let (loaded, w) :=
    match m_wintabLib (api w) with
    | None => loadWintab w
    | Some _ => (true, w)
    end in
  if negb loaded then Some (NULL, w)
  else if negb (WTInfo (fns w)) then None
  else
    let logctx := LOGCONTEXTW_zero others in
    let (infoRes, logctx) := WTInfo_DEFSYSCTX logctx in
    let logctx :=
      {| lcOptions := open_options (lcOptions logctx) moveMouse;
         lcPktData := PACKETDATA;
         lcPktMode := PACKETMODE;
         lcMoveMask := PACKETDATA;
         lcOutOrgX := lcOutOrgX logctx;
         lcOutOrgY := lcOutOrgY logctx;
         lcOutExtX := lcOutExtX logctx;
         lcOutExtY := lcOutExtY logctx;
         lcOthers := lcOthers logctx |} in
    let outBounds :=
      {| rect_x := lcOutOrgX logctx; rect_y := lcOutOrgY logctx;
         rect_w := lcOutExtX logctx; rect_h := lcOutExtY logctx |} in
    let (infoRes, pressure) := WTInfo_NPRESSURE pressure in
    let (minPressure, maxPressure) :=
      if infoRes >=? sizeof_AXIS then (axMin pressure, axMax pressure)
      else (0, 0) in
    let this := {| m_wintabLib := m_wintabLib (api w);
                   m_outBounds := outBounds;
                   m_minPressure := minPressure;
                   m_maxPressure := maxPressure;
                   m_queueSize := m_queueSize (api w) |} in
    if negb (WTOpen (fns w)) then None
    else
      let (ctx, d) := do_WTOpen (drv w) hwnd logctx 1 in
      let l := log w ++ [EvWTOpen hwnd logctx 1] in
      if negb (truthy ctx) then
        Some (NULL, {| api := this; fns := fns w; drv := d; log := l |})
      else if negb (WTQueueSizeGet (fns w)) then None
      else
        let q := do_WTQueueSizeGet d ctx in
        if (q <? 128) && negb (WTQueueSizeSet (fns w)) then None
        else
          match (if q <? 128 then queue_loop ctx q 128 (queue_turns q) d l
                 else Some (d, l)) with
          | None => None
          | Some (d, l) =>
            let q := do_WTQueueSizeGet d ctx in
            let this := {| m_wintabLib := m_wintabLib this;
                           m_outBounds := m_outBounds this;
                           m_minPressure := m_minPressure this;
                           m_maxPressure := m_maxPressure this;
                           m_queueSize := q |} in
            Some (ctx, {| api := this; fns := fns w; drv := d; log := l |})
          end.

(** The sizes asked of [WTQueueSizeSet], in order, with the answers. *)
Fixpoint queue_requests (l : list event) : list (Z * Z) :=
  match l with
  | [] => []
  | EvWTQueueSizeSet _ size result :: l' =>
    (size, result) :: queue_requests l'
  | _ :: l' => queue_requests l'
  end.

(** The contexts handed to [WTOpen], in order. *)
Fixpoint opened_contexts (l : list event) : list LOGCONTEXTW :=
  match l with
  | [] => []
  | EvWTOpen _ logctx _ :: l' => logctx :: opened_contexts l'
  | _ :: l' => opened_contexts l'
  end.

(** The libraries loaded and unloaded, in order. *)
Fixpoint dll_events (l : list event) : list event :=
  match l with
  | [] => []
  | EvLoadDll n :: l' => EvLoadDll n :: dll_events l'
  | EvUnloadDll h :: l' => EvUnloadDll h :: dll_events l'
  | _ :: l' => dll_events l'
  end.
End Wintab.
End Wintab.

(** ** Concrete tablets *)

(** A driver whose state is the queue size, starting at 32, and which
    grants a queue of at most 100 packets; the DLL exports everything but
    [WTOverlap]. *)
Definition sample_tablet : Wintab.Tablet :=
  {| Wintab.driver := Z;
     Wintab.PACKETDATA := 0x4E0;
     Wintab.PACKETMODE := 0x40;
     Wintab.load_dll := fun _ => Some 0x7000;
     Wintab.get_dll_filename := fun _ => "wintab32.dll"%string;
     Wintab.is_file := fun _ => true;
     Wintab.Sha1_calculateFromFile := fun _ => "00"%string;
     Wintab.get_dll_proc :=
       fun _ name => negb (String.eqb name "WTOverlap");
     Wintab.WTInfo_DEFSYSCTX := fun c =>
       (212, {| Wintab.lcOptions := 0x0003;
                Wintab.lcPktData := Wintab.lcPktData c;
                Wintab.lcPktMode := Wintab.lcPktMode c;
                Wintab.lcMoveMask := Wintab.lcMoveMask c;
                Wintab.lcOutOrgX := 0; Wintab.lcOutOrgY := 0;
                Wintab.lcOutExtX := 1920; Wintab.lcOutExtY := 1080;
                Wintab.lcOthers := Wintab.lcOthers c |});
     Wintab.WTInfo_NPRESSURE := fun _ =>
       (16, {| Wintab.axMin := 0; Wintab.axMax := 1023;
               Wintab.axUnits := 0; Wintab.axResolution := 0 |});
     Wintab.do_WTOpen := fun d _ _ _ => (0x99, d);
     Wintab.do_WTClose := fun d _ => (1, d);
     Wintab.do_WTQueueSizeGet := fun d _ => d;
     Wintab.do_WTQueueSizeSet :=
       fun d _ size => if size <=? 100 then (1, size) else (0, d) |}.

(** The same tablet with a DLL that lacks [WTInfoW]. *)
Definition sample_tablet_incomplete : Wintab.Tablet :=
  {| Wintab.driver := Z;
     Wintab.PACKETDATA := 0x4E0;
     Wintab.PACKETMODE := 0x40;
     Wintab.load_dll := fun _ => Some 0x7000;
     Wintab.get_dll_filename := fun _ => "wintab32.dll"%string;
     Wintab.is_file := fun _ => true;
     Wintab.Sha1_calculateFromFile := fun _ => "00"%string;
     Wintab.get_dll_proc :=
       fun _ name => negb (String.eqb name "WTInfoW");
     Wintab.WTInfo_DEFSYSCTX := fun c => (212, c);
     Wintab.WTInfo_NPRESSURE := fun a => (0, a);
     Wintab.do_WTOpen := fun d _ _ _ => (0x99, d);
     Wintab.do_WTClose := fun d _ => (1, d);
     Wintab.do_WTQueueSizeGet := fun d _ => d;
     Wintab.do_WTQueueSizeSet := fun d _ size => (1, size) |}.

(** A tablet without [wintab32.dll]. *)
Definition sample_tablet_absent : Wintab.Tablet :=
  {| Wintab.driver := Z;
     Wintab.PACKETDATA := 0x4E0;
     Wintab.PACKETMODE := 0x40;
     Wintab.load_dll := fun _ => None;
     Wintab.get_dll_filename := fun _ => ""%string;
     Wintab.is_file := fun _ => false;
     Wintab.Sha1_calculateFromFile := fun _ => ""%string;
     Wintab.get_dll_proc := fun _ _ => false;
     Wintab.WTInfo_DEFSYSCTX := fun c => (0, c);
     Wintab.WTInfo_NPRESSURE := fun a => (0, a);
     Wintab.do_WTOpen := fun d _ _ _ => (0, d);
     Wintab.do_WTClose := fun d _ => (0, d);
     Wintab.do_WTQueueSizeGet := fun d _ => d;
     Wintab.do_WTQueueSizeSet := fun d _ _ => (0, d) |}.

(** A freshly constructed [WintabAPI], with the function pointers still
    null and nothing called yet. *)
Definition sample_world {T : Wintab.Tablet} (d : Wintab.driver)
    : Wintab.world :=
  {| Wintab.api :=
       {| Wintab.m_wintabLib := None;
          Wintab.m_outBounds :=
            {| Wintab.rect_x := 0; Wintab.rect_y := 0;
               Wintab.rect_w := 0; Wintab.rect_h := 0 |};
          Wintab.m_minPressure := 0;
          Wintab.m_maxPressure := 0;
          Wintab.m_queueSize := 0 |};
     Wintab.fns := Wintab.no_procs;
     Wintab.drv := d;
     Wintab.log := [] |}.

Definition sample_axis : Wintab.AXIS :=
  {| Wintab.axMin := 0xCC; Wintab.axMax := 0xCC;
     Wintab.axUnits := 0xCC; Wintab.axResolution := 0xCC |}.

(** ** Reading the calls of [open] *)

Definition queue_event (ctx : Wintab.HCTX) (p : Z * Z) : Wintab.event :=
  Wintab.EvWTQueueSizeSet ctx (fst p) (snd p).

(** What [open] fixes in the context it hands to [WTOpen], given the
    default context [def] that [WTInfo] reported. *)
Definition context_as_opened {T : Wintab.Tablet} (moveMouse : bool)
    (def c : Wintab.LOGCONTEXTW) : Prop :=
  Z.testbit (Wintab.lcOptions c) 0 = moveMouse
  /\ Z.testbit (Wintab.lcOptions c) 2 = true
  /\ Z.testbit (Wintab.lcOptions c) 3 = true
  /\ (forall n, 0 <= n -> n <> 0 -> n <> 2 -> n <> 3 ->
        Z.testbit (Wintab.lcOptions c) n
        = Z.testbit (Wintab.lcOptions def) n)
  /\ Wintab.lcPktData c = Wintab.PACKETDATA
  /\ Wintab.lcPktMode c = Wintab.PACKETMODE
  /\ Wintab.lcMoveMask c = Wintab.PACKETDATA
  /\ Wintab.lcOutOrgX c = Wintab.lcOutOrgX def
  /\ Wintab.lcOutOrgY c = Wintab.lcOutOrgY def
  /\ Wintab.lcOutExtX c = Wintab.lcOutExtX def
  /\ Wintab.lcOutExtY c = Wintab.lcOutExtY def
  /\ Wintab.lcOthers c = Wintab.lcOthers def.

(** The context [open] hands to [WTOpen]: the default context with the
    options adjusted and the packet fields set. *)
Definition opened_context {T : Wintab.Tablet} (moveMouse : bool)
    (others : nat) : Wintab.LOGCONTEXTW :=
  let def := snd (Wintab.WTInfo_DEFSYSCTX (Wintab.LOGCONTEXTW_zero others)) in
  {| Wintab.lcOptions := Wintab.open_options (Wintab.lcOptions def) moveMouse;
     Wintab.lcPktData := Wintab.PACKETDATA;
     Wintab.lcPktMode := Wintab.PACKETMODE;
     Wintab.lcMoveMask := Wintab.PACKETDATA;
     Wintab.lcOutOrgX := Wintab.lcOutOrgX def;
     Wintab.lcOutOrgY := Wintab.lcOutOrgY def;
     Wintab.lcOutExtX := Wintab.lcOutExtX def;
     Wintab.lcOutExtY := Wintab.lcOutExtY def;
     Wintab.lcOthers := Wintab.lcOthers def |}.

(** The world in which [open] goes on after its first test. *)
Definition after_load {T : Wintab.Tablet} (w : Wintab.world) : Wintab.world :=
  match Wintab.m_wintabLib (Wintab.api w) with
  | None => snd (Wintab.loadWintab w)
  | Some _ => w
  end.
(** * Properties *)

(** ** Effect and operation conversion *)

Section EffectConversionFacts.
Context {E : DropOperationEnum} {B : DropOperationBitSet E}.

Lemma truthy_pick (b : bool) (v : Z) :
  v <> 0 -> truthy (if b then v else 0) = b.
Proof.
  intros Hv. unfold truthy. destruct b.
  - apply Z.eqb_neq in Hv. now rewrite Hv.
  - reflexivity.
Qed.

Lemma operation_set_Copy c m l :
  Z.land (operation_set c m l) DropOperation_Copy
  = if c then DropOperation_Copy else 0.
Proof.
  unfold operation_set. rewrite None_no_bits, Z.lor_0_l.
  rewrite !Z.land_lor_distr_l.
  assert (Hm : Z.land (if m then DropOperation_Move else 0)
                      DropOperation_Copy = 0).
  { destruct m; [rewrite Z.land_comm; apply Copy_Move_apart | apply Z.land_0_l]. }
  assert (Hl : Z.land (if l then DropOperation_Link else 0)
                      DropOperation_Copy = 0).
  { destruct l; [rewrite Z.land_comm; apply Copy_Link_apart | apply Z.land_0_l]. }
  rewrite Hm, Hl, !Z.lor_0_r.
  destruct c; [apply Z.land_diag | apply Z.land_0_l].
Qed.

Lemma operation_set_Move c m l :
  Z.land (operation_set c m l) DropOperation_Move
  = if m then DropOperation_Move else 0.
Proof.
  unfold operation_set. rewrite None_no_bits, Z.lor_0_l.
  rewrite !Z.land_lor_distr_l.
  assert (Hc : Z.land (if c then DropOperation_Copy else 0)
                      DropOperation_Move = 0).
  { destruct c; [apply Copy_Move_apart | apply Z.land_0_l]. }
  assert (Hl : Z.land (if l then DropOperation_Link else 0)
                      DropOperation_Move = 0).
  { destruct l; [rewrite Z.land_comm; apply Move_Link_apart | apply Z.land_0_l]. }
  rewrite Hc, Hl, Z.lor_0_l, Z.lor_0_r.
  destruct m; [apply Z.land_diag | apply Z.land_0_l].
Qed.

Lemma operation_set_Link c m l :
  Z.land (operation_set c m l) DropOperation_Link
  = if l then DropOperation_Link else 0.
Proof.
  unfold operation_set. rewrite None_no_bits, Z.lor_0_l.
  rewrite !Z.land_lor_distr_l.
  assert (Hc : Z.land (if c then DropOperation_Copy else 0)
                      DropOperation_Link = 0).
  { destruct c; [apply Copy_Link_apart | apply Z.land_0_l]. }
  assert (Hm : Z.land (if m then DropOperation_Move else 0)
                      DropOperation_Link = 0).
  { destruct m; [apply Move_Link_apart | apply Z.land_0_l]. }
  rewrite Hc, Hm, !Z.lor_0_l.
  destruct l; [apply Z.land_diag | apply Z.land_0_l].
Qed.

(** Encoding a subset sets exactly the native flags of its members. *)
Lemma as_dropeffect_operation_set c m l :
  as_dropeffect (operation_set c m l)
  = Z.lor (Z.lor (if c then DROPEFFECT_COPY else 0)
                 (if m then DROPEFFECT_MOVE else 0))
          (if l then DROPEFFECT_LINK else 0).
Proof.
  unfold as_dropeffect.
  rewrite operation_set_Copy, operation_set_Move, operation_set_Link.
  rewrite (truthy_pick c _ Copy_some_bit),
          (truthy_pick m _ Move_some_bit),
          (truthy_pick l _ Link_some_bit).
  destruct c, m, l; reflexivity.
Qed.
End EffectConversionFacts.

(** C4.  For each of the eight subsets of Copy, Move and Link, decoding the
    native encoding of the subset gives the subset back; the empty subset
    is [None], which encodes to [DROPEFFECT_NONE], which decodes to
    [None]. *)
Theorem effect_operation_round_trip
    (E : DropOperationEnum) (B : DropOperationBitSet E)
    (copy move link : bool) :
  as_dropoperation (as_dropeffect (operation_set copy move link))
  = operation_set copy move link
  /\ operation_set false false false = DropOperation_None
  /\ as_dropeffect DropOperation_None = DROPEFFECT_NONE
  /\ as_dropoperation DROPEFFECT_NONE = DropOperation_None.
Proof.
  split; [|split; [|split]].
  - rewrite as_dropeffect_operation_set.
    unfold operation_set. rewrite None_no_bits.
    destruct copy, move, link; cbn; rewrite ?Z.lor_0_r, ?Z.lor_0_l; reflexivity.
  - unfold operation_set. now rewrite None_no_bits.
  - unfold as_dropeffect. rewrite None_no_bits. reflexivity.
  - unfold as_dropoperation. cbn. now rewrite None_no_bits.
Qed.

Lemma laf_DropOperation_BitSet : DropOperationBitSet laf_DropOperation.
Proof. split; cbn; congruence. Qed.

Lemma effect_operation_round_trip_witness :
  @as_dropoperation laf_DropOperation
    (@as_dropeffect laf_DropOperation
       (@operation_set laf_DropOperation true false true))
  = @operation_set laf_DropOperation true false true
  /\ @operation_set laf_DropOperation false false false = 0
  /\ @as_dropeffect laf_DropOperation 0 = DROPEFFECT_NONE
  /\ @as_dropoperation laf_DropOperation DROPEFFECT_NONE = 0.
Proof.
  exact (effect_operation_round_trip laf_DropOperation
           laf_DropOperation_BitSet true false true).
Defined.

Lemma sample_platform_contract : Win32Contract sample_platform.
Proof.
  split.
  - reflexivity.
  - intros f s. cbn. destruct (f =? 0xC001) eqn:Hf; [|discriminate].
    apply Z.eqb_eq in Hf. subst f. lia.
Qed.

(** ** The session callbacks *)

Section SessionFacts.
Context {E : DropOperationEnum} {P : Platform}.
Import DragTargetAdapter.

Lemma set_m_data_same (a : t) : m_data a = None -> set_m_data a None = a.
Proof. destruct a as [r d p]. cbn. intros ->. reflexivity. Qed.

(** With a null transfer object both callbacks stop at the null test,
    having already stored the null pointer. *)
Lemma DragEnter_null (w : Window) (a : t) grf pt eff :
  hasDragTarget w = true ->
  DragEnter w a None grf pt eff
  = {| status := E_UNEXPECTED;
       adapter := set_m_data a None;
       effect := eff |}.
Proof. intros Hw. unfold DragEnter. rewrite Hw. reflexivity. Qed.

Lemma Drop_null (w : Window) (a : t) grf pt eff :
  hasDragTarget w = true ->
  Drop w a None grf pt eff
  = {| status := E_UNEXPECTED;
       adapter := set_m_data a None;
       effect := eff |}.
Proof. intros Hw. unfold Drop. rewrite Hw. reflexivity. Qed.

Lemma DragEnter_object (w : Window) (a : t) d grf pt eff :
  hasDragTarget w = true ->
  adapter (DragEnter w a (Some d) grf pt eff)
  = {| m_ref := m_ref a;
       m_data := Some d;
       m_position := drag_position (nativeHandle w) pt |}.
Proof. intros Hw. unfold DragEnter. rewrite Hw. reflexivity. Qed.

Lemma DragLeave_adapter (w : Window) (a : t) :
  hasDragTarget w = true ->
  DragLeave w a = (S_OK, set_m_data a None).
Proof. intros Hw. unfold DragLeave. rewrite Hw. reflexivity. Qed.

Lemma Drop_releases (w : Window) (a : t) pDataObj grf pt eff :
  hasDragTarget w = true ->
  m_data (adapter (Drop w a pDataObj grf pt eff)) = None.
Proof.
  intros Hw. unfold Drop. rewrite Hw. destruct pDataObj; reflexivity.
Qed.

Lemma Drop_status (w : Window) (a : t) d grf pt eff :
  hasDragTarget w = true ->
  status (Drop w a (Some d) grf pt eff) = S_OK.
Proof. intros Hw. unfold Drop. rewrite Hw. reflexivity. Qed.
End SessionFacts.

(** C1, as written, fails twice over.  In the middle of a session a call
    with a null transfer object replaces the held reference by null before
    it is tested; and the capability test comes first, so that without a
    drag target the status is [E_NOTIMPL]. *)
Lemma null_rejected_untouched_fails :
  ~ @null_rejected_untouched laf_DropOperation sample_platform
      sample_window sample_entered 0 {| pt_x := 105; pt_y := 57 |} 1
  /\ ~ @null_rejected_untouched laf_DropOperation sample_platform
        sample_window_without_target (DragTargetAdapter.idle 1) 0
        {| pt_x := 105; pt_y := 57 |} 1.
Proof.
  unfold null_rejected_untouched. cbn. split.
  - intros [[_ H] _]. discriminate H.
  - intros [[H _] _]. discriminate H.
Qed.

(** C1, amended.  On a window that has a drag target, [DragEnter] and
    [Drop] called with a null transfer object return [E_UNEXPECTED], leave
    the stored position, the count and the effect as they were, and leave
    the whole adapter as it was when it held no reference before the
    call. *)
Theorem null_transfer_object_rejected
    (E : DropOperationEnum) (P : Platform)
    (w : Window) (a : DragTargetAdapter.t)
    (grf : DWORD) (pt : POINTL) (eff : DWORD)
    (Hw : hasDragTarget w = true) :
  let enter := DragTargetAdapter.DragEnter w a None grf pt eff in
  let drop := DragTargetAdapter.Drop w a None grf pt eff in
  (DragTargetAdapter.status enter = E_UNEXPECTED
   /\ DragTargetAdapter.status drop = E_UNEXPECTED)
  /\ (DragTargetAdapter.m_position (DragTargetAdapter.adapter enter)
      = DragTargetAdapter.m_position a
      /\ DragTargetAdapter.m_position (DragTargetAdapter.adapter drop)
         = DragTargetAdapter.m_position a)
  /\ (DragTargetAdapter.m_ref (DragTargetAdapter.adapter enter)
      = DragTargetAdapter.m_ref a
      /\ DragTargetAdapter.m_ref (DragTargetAdapter.adapter drop)
         = DragTargetAdapter.m_ref a)
  /\ (DragTargetAdapter.effect enter = eff
      /\ DragTargetAdapter.effect drop = eff)
  /\ (DragTargetAdapter.m_data a = None ->
      DragTargetAdapter.adapter enter = a
      /\ DragTargetAdapter.adapter drop = a).
Proof.
  cbv zeta. rewrite (DragEnter_null w a grf pt eff Hw).
  rewrite (Drop_null w a grf pt eff Hw). cbn.
  repeat split; try reflexivity;
    now apply set_m_data_same.
Qed.

Lemma null_transfer_object_rejected_witness :
  let enter := @DragTargetAdapter.DragEnter laf_DropOperation sample_platform
                 sample_window (DragTargetAdapter.idle 1) None 0
                 {| pt_x := 105; pt_y := 57 |} 1 in
  DragTargetAdapter.status enter = E_UNEXPECTED
  /\ DragTargetAdapter.adapter enter = DragTargetAdapter.idle 1.
Proof.
  pose proof (null_transfer_object_rejected laf_DropOperation
                sample_platform sample_window (DragTargetAdapter.idle 1)
                0 {| pt_x := 105; pt_y := 57 |} 1 eq_refl) as H.
  cbv zeta in H. destruct H as [[H1 _] [_ [_ [_ H5]]]].
  split; [exact H1 | exact (proj1 (H5 eq_refl))].
Defined.

(** C2, as written, fails: the position stored by Enter is still there
    after Leave. *)
Lemma enter_leave_restores_idle_fails :
  ~ @enter_leave_restores_idle laf_DropOperation sample_platform
      sample_window sample_window 1 sample_data 0
      {| pt_x := 105; pt_y := 57 |} 1.
Proof.
  unfold enter_leave_restores_idle. cbn. intros H. discriminate H.
Qed.

(** C2, amended.  After Enter with a transfer object followed by Leave, on
    a window that has a drag target at both calls, Leave succeeds and the
    adapter holds no transfer object; its count is untouched; its stored
    position is the window-local position computed by Enter, which Leave
    does not clear.  The adapter has no other member: no operation bitmask
    is stored at any time. *)
Theorem enter_leave_releases_reference
    (E : DropOperationEnum) (P : Platform)
    (w1 w2 : Window) (a : DragTargetAdapter.t) (d : IDataObject)
    (grf : DWORD) (pt : POINTL) (eff : DWORD)
    (Hw1 : hasDragTarget w1 = true) (Hw2 : hasDragTarget w2 = true) :
  DragTargetAdapter.DragLeave w2
    (DragTargetAdapter.adapter
       (DragTargetAdapter.DragEnter w1 a (Some d) grf pt eff))
  = (S_OK,
     {| DragTargetAdapter.m_ref := DragTargetAdapter.m_ref a;
        DragTargetAdapter.m_data := None;
        DragTargetAdapter.m_position :=
          drag_position (nativeHandle w1) pt |}).
Proof.
  rewrite (DragEnter_object w1 a d grf pt eff Hw1).
  rewrite DragLeave_adapter by exact Hw2. reflexivity.
Qed.

Lemma enter_leave_releases_reference_witness :
  @DragTargetAdapter.DragLeave laf_DropOperation sample_window
    (DragTargetAdapter.adapter
       (@DragTargetAdapter.DragEnter laf_DropOperation sample_platform
          sample_window (DragTargetAdapter.idle 1) (Some sample_data) 0
          {| pt_x := 105; pt_y := 57 |} 1))
  = (S_OK,
     {| DragTargetAdapter.m_ref := 1;
        DragTargetAdapter.m_data := None;
        DragTargetAdapter.m_position := {| x := 5; y := 7 |} |}).
Proof.
  exact (enter_leave_releases_reference laf_DropOperation sample_platform
           sample_window sample_window (DragTargetAdapter.idle 1)
           sample_data 0 {| pt_x := 105; pt_y := 57 |} 1 eq_refl eq_refl).
Defined.

(** C3, as written, fails: when the window has lost its drag target by the
    time of Drop, Drop returns at the capability test and the reference
    taken by Enter stays held. *)
Lemma enter_drop_releases_fails :
  ~ @enter_drop_releases laf_DropOperation sample_platform
      sample_window sample_window_without_target (DragTargetAdapter.idle 1)
      (Some sample_data) (Some sample_data) 0 0
      {| pt_x := 105; pt_y := 57 |} {| pt_x := 110; pt_y := 60 |} 1 1.
Proof.
  unfold enter_drop_releases. cbn. intros H. discriminate H.
Qed.

(** The reference held after Enter and Drop, in every case. *)
Lemma enter_drop_held_reference
    (E : DropOperationEnum) (P : Platform)
    (w1 w2 : Window) (a : DragTargetAdapter.t)
    (pDataObj1 pDataObj2 : option IDataObject)
    (grf1 grf2 : DWORD) (pt1 pt2 : POINTL) (eff1 eff2 : DWORD) :
  DragTargetAdapter.m_data
    (DragTargetAdapter.adapter
       (DragTargetAdapter.Drop w2
          (DragTargetAdapter.adapter
             (DragTargetAdapter.DragEnter w1 a pDataObj1 grf1 pt1 eff1))
          pDataObj2 grf2 pt2 eff2))
  = if hasDragTarget w2 then None
    else if hasDragTarget w1 then pDataObj1
         else DragTargetAdapter.m_data a.
Proof.
  unfold DragTargetAdapter.Drop, DragTargetAdapter.DragEnter.
  destruct (hasDragTarget w2), (hasDragTarget w1), pDataObj1, pDataObj2;
    reflexivity.
Qed.

(** C3, amended.  After Enter followed by Drop, whatever the window's
    callbacks answer and whatever transfer objects are supplied, the
    adapter holds no transfer object when Drop returns, provided the
    window has a drag target when Drop is called. *)
Theorem enter_drop_releases_reference
    (E : DropOperationEnum) (P : Platform)
    (w1 w2 : Window) (a : DragTargetAdapter.t)
    (pDataObj1 pDataObj2 : option IDataObject)
    (grf1 grf2 : DWORD) (pt1 pt2 : POINTL) (eff1 eff2 : DWORD)
    (Hw2 : hasDragTarget w2 = true) :
  enter_drop_releases w1 w2 a pDataObj1 pDataObj2 grf1 grf2 pt1 pt2
    eff1 eff2.
Proof.
  unfold enter_drop_releases. cbv zeta. now apply Drop_releases.
Qed.

Lemma enter_drop_releases_reference_witness :
  @enter_drop_releases laf_DropOperation sample_platform
    sample_window sample_window (DragTargetAdapter.idle 1)
    (Some sample_data) (Some sample_data) 0 0
    {| pt_x := 105; pt_y := 57 |} {| pt_x := 110; pt_y := 60 |} 1 1.
Proof.
  exact (enter_drop_releases_reference laf_DropOperation sample_platform
           sample_window sample_window (DragTargetAdapter.idle 1)
           (Some sample_data) (Some sample_data) 0 0
           {| pt_x := 105; pt_y := 57 |} {| pt_x := 110; pt_y := 60 |} 1 1
           eq_refl).
Defined.

(** C5.  When the window has no drag target, each of the four session
    callbacks returns [E_NOTIMPL] and leaves the adapter (count, held
    reference, stored position) and the effect exactly as they were. *)
Theorem no_drag_target_not_implemented
    (E : DropOperationEnum) (P : Platform)
    (w : Window) (a : DragTargetAdapter.t)
    (pDataObj : option IDataObject)
    (grf : DWORD) (pt : POINTL) (eff : DWORD)
    (Hw : hasDragTarget w = false) :
  DragTargetAdapter.DragEnter w a pDataObj grf pt eff
  = {| DragTargetAdapter.status := E_NOTIMPL;
       DragTargetAdapter.adapter := a;
       DragTargetAdapter.effect := eff |}
  /\ DragTargetAdapter.DragOver w a grf pt eff
     = {| DragTargetAdapter.status := E_NOTIMPL;
          DragTargetAdapter.adapter := a;
          DragTargetAdapter.effect := eff |}
  /\ DragTargetAdapter.DragLeave w a = (E_NOTIMPL, a)
  /\ DragTargetAdapter.Drop w a pDataObj grf pt eff
     = {| DragTargetAdapter.status := E_NOTIMPL;
          DragTargetAdapter.adapter := a;
          DragTargetAdapter.effect := eff |}.
Proof.
  unfold DragTargetAdapter.DragEnter, DragTargetAdapter.DragOver,
    DragTargetAdapter.DragLeave, DragTargetAdapter.Drop.
  rewrite Hw. cbn. repeat split.
Qed.

Lemma no_drag_target_not_implemented_witness :
  @DragTargetAdapter.Drop laf_DropOperation sample_platform
    sample_window_without_target sample_entered (Some sample_data) 0
    {| pt_x := 105; pt_y := 57 |} 1
  = {| DragTargetAdapter.status := E_NOTIMPL;
       DragTargetAdapter.adapter := sample_entered;
       DragTargetAdapter.effect := 1 |}.
Proof.
  exact (proj2 (proj2 (proj2
    (no_drag_target_not_implemented laf_DropOperation sample_platform
       sample_window_without_target sample_entered (Some sample_data) 0
       {| pt_x := 105; pt_y := 57 |} 1 eq_refl)))).
Defined.

(** ** [DataWrapper]: one medium at a time *)

Lemma STGMEDIUM_eqb_refl (m : STGMEDIUM) : STGMEDIUM_eqb m m = true.
Proof. unfold STGMEDIUM_eqb. now rewrite !Z.eqb_refl. Qed.

Lemma live_media_snoc (tr : trace) (e : os_event) :
  live_media (tr ++ [e]) = live_step (live_media tr) e.
Proof. unfold live_media. now rewrite fold_left_app. Qed.

Lemma firstn_snoc_le {A} (n : nat) (l : list A) (a : A) :
  (n <= List.length l)%nat -> firstn n (l ++ [a]) = firstn n l.
Proof.
  intros Hn. rewrite firstn_app.
  replace (n - List.length l)%nat with 0%nat by lia.
  cbn. now rewrite app_nil_r.
Qed.

Lemma firstn_snoc_gt {A} (n : nat) (l : list A) (a : A) :
  (List.length l < n)%nat -> firstn n (l ++ [a]) = l ++ [a].
Proof.
  intros Hn. apply firstn_all2. rewrite length_app. cbn. lia.
Qed.

Lemma one_medium_nil : one_medium_at_a_time [].
Proof.
  split.
  - intros n. rewrite firstn_nil. unfold live_media. cbn. lia.
  - intros n fmt hr medium H. destruct n; discriminate H.
Qed.

(** Extending a good trace by one event keeps it good when the event
    leaves at most one medium alive and, if it is a query, finds none. *)
Lemma one_medium_snoc (tr : trace) (e : os_event) :
  one_medium_at_a_time tr ->
  (List.length (live_step (live_media tr) e) <= 1)%nat ->
  (forall fmt hr medium, e = EvGetData fmt hr medium -> live_media tr = []) ->
  one_medium_at_a_time (tr ++ [e]).
Proof.
  intros [Hlen Hget] Hstep Hquery. split.
  - intros n. destruct (Nat.le_gt_cases n (List.length tr)) as [Hn | Hn].
    + rewrite firstn_snoc_le by exact Hn. apply Hlen.
    + rewrite firstn_snoc_gt by exact Hn.
      rewrite live_media_snoc. exact Hstep.
  - intros n fmt hr medium Hnth.
    destruct (Nat.lt_ge_cases n (List.length tr)) as [Hn | Hn].
    + rewrite nth_error_app1 in Hnth by exact Hn.
      rewrite firstn_snoc_le by lia. eapply Hget; eassumption.
    + rewrite nth_error_app2 in Hnth by exact Hn.
      destruct (n - List.length tr)%nat as [|k] eqn:Hk.
      * cbn in Hnth. injection Hnth as He.
        assert (n = List.length tr) by lia. subst n.
        rewrite firstn_snoc_le by lia. rewrite firstn_all.
        eapply Hquery; eassumption.
      * cbn in Hnth. destruct k; discriminate Hnth.
Qed.

Section DataWrapperFacts.
Context {P : Platform}.

Lemma release_in_step (this : DataWrapper.t) (tr : trace) :
  in_step this tr ->
  in_step (fst (DataWrapper.release this tr))
          (snd (DataWrapper.release this tr))
  /\ live_media (snd (DataWrapper.release this tr)) = []
  /\ DataWrapper.m_data (fst (DataWrapper.release this tr))
     = DataWrapper.m_data this.
Proof.
  intros [Hgood Hlive]. unfold DataWrapper.release, held in *.
  destruct (DataWrapper.m_result this =? S_OK) eqn:Hres.
  - cbn. assert (Hnow : live_media
                          (tr ++ [EvReleaseStgMedium (DataWrapper.m_medium this)])
                        = []).
    { rewrite live_media_snoc, Hlive. cbn [live_step remove_first].
      now rewrite STGMEDIUM_eqb_refl. }
    split; [split | split].
    + apply one_medium_snoc; [exact Hgood | | discriminate].
      rewrite <- live_media_snoc, Hnow. cbn. lia.
    + rewrite Hnow. reflexivity.
    + exact Hnow.
    + reflexivity.
  - cbn [fst snd ret]. unfold ret. cbn [fst snd].
    split; [split; [exact Hgood | unfold held; now rewrite Hres]
           | split; [exact Hlive | reflexivity]].
Qed.

Lemma get_in_step (this : DataWrapper.t) (cfmt : CLIPFORMAT) (tr : trace) :
  in_step this tr ->
  in_step (snd (fst (DataWrapper.get this cfmt tr)))
          (snd (DataWrapper.get this cfmt tr))
  /\ DataWrapper.m_data (snd (fst (DataWrapper.get this cfmt tr)))
     = DataWrapper.m_data this.
Proof.
  intros Hin.
  destruct (release_in_step this tr Hin) as [[Hgood _] [Hnone Hdata]].
  unfold DataWrapper.get, bind.
  destruct (DataWrapper.release this tr) as [this1 tr1]. cbn in *.
  destruct (GetData (DataWrapper.m_data this1) _) as [hr medium] eqn:Hq.
  cbn.
  assert (Hnow : live_media (tr1 ++ [EvGetData
                   {| cfFormat := cfmt; ptd := NULL;
                      dwAspect := DVASPECT_CONTENT; lindex := -1;
                      tymed := TYMED_HGLOBAL |} hr medium])
                 = if hr =? S_OK then [medium] else []).
  { rewrite live_media_snoc, Hnone. reflexivity. }
  assert (Hgood' : one_medium_at_a_time (tr1 ++ [EvGetData
                   {| cfFormat := cfmt; ptd := NULL;
                      dwAspect := DVASPECT_CONTENT; lindex := -1;
                      tymed := TYMED_HGLOBAL |} hr medium])).
  { apply one_medium_snoc; [exact Hgood | | intros; exact Hnone].
    rewrite <- live_media_snoc, Hnow. destruct (hr =? S_OK); cbn; lia. }
  destruct (hr =? S_OK) eqn:Hhr; cbn;
    (split; [split; [exact Hgood' | rewrite Hnow; unfold held; cbn;
                                    now rewrite Hhr]
            | exact Hdata]).
Qed.

Lemma gets_in_step (cfmts : list CLIPFORMAT) :
  forall (this : DataWrapper.t) (tr : trace),
    in_step this tr ->
    in_step (fst (DataWrapper.gets this cfmts tr))
            (snd (DataWrapper.gets this cfmts tr)).
Proof.
  induction cfmts as [|cfmt rest IH]; intros this tr Hin.
  - exact Hin.
  - cbn. unfold bind.
    pose proof (get_in_step this cfmt tr Hin) as [Hnext _].
    destruct (DataWrapper.get this cfmt tr) as [[g this1] tr1].
    cbn in *. apply IH. exact Hnext.
Qed.

Lemma ctor_in_step (d : IDataObject) (indeterminate : STGMEDIUM) :
  in_step (DataWrapper.ctor d indeterminate) [].
Proof. split; [apply one_medium_nil | reflexivity]. Qed.

Lemma dtor_in_step (this : DataWrapper.t) (tr : trace) :
  in_step this tr ->
  one_medium_at_a_time (snd (DataWrapper.dtor this tr))
  /\ live_media (snd (DataWrapper.dtor this tr)) = [].
Proof.
  intros Hin. destruct (release_in_step this tr Hin) as [[Hgood _] [Hnone _]].
  unfold DataWrapper.dtor, bind.
  destruct (DataWrapper.release this tr) as [this1 tr1]. cbn in *.
  split; assumption.
Qed.
End DataWrapperFacts.

Lemma queried_app (tr1 tr2 : trace) :
  queried (tr1 ++ tr2) = queried tr1 ++ queried tr2.
Proof.
  induction tr1 as [|e tr1 IH]; [reflexivity|].
  destruct e; cbn; now rewrite IH.
Qed.

Section DataWrapperQueries.
Context {P : Platform}.

Lemma release_queried (this : DataWrapper.t) (tr : trace) :
  queried (snd (DataWrapper.release this tr)) = queried tr.
Proof.
  unfold DataWrapper.release.
  destruct (DataWrapper.m_result this =? S_OK); cbn; [|reflexivity].
  rewrite queried_app. cbn. apply app_nil_r.
Qed.

Lemma get_queried (this : DataWrapper.t) (cfmt : CLIPFORMAT) (tr : trace) :
  queried (snd (DataWrapper.get this cfmt tr)) = queried tr ++ [cfmt].
Proof.
  pose proof (release_queried this tr) as Hrel.
  unfold DataWrapper.get, bind.
  destruct (DataWrapper.release this tr) as [this1 tr1]. cbn in Hrel.
  destruct (GetData (DataWrapper.m_data this1) _) as [hr medium].
  cbn. destruct (hr =? S_OK); cbn; rewrite queried_app, Hrel; reflexivity.
Qed.

Lemma gets_queried (cfmts : list CLIPFORMAT) :
  forall (this : DataWrapper.t) (tr : trace),
    queried (snd (DataWrapper.gets this cfmts tr)) = queried tr ++ cfmts.
Proof.
  induction cfmts as [|cfmt rest IH]; intros this tr.
  - cbn. now rewrite app_nil_r.
  - cbn. unfold bind.
    pose proof (get_queried this cfmt tr) as Hget.
    destruct (DataWrapper.get this cfmt tr) as [[g this1] tr1].
    cbn in *. rewrite IH, Hget, <- app_assoc. reflexivity.
Qed.

Lemma dtor_queried (this : DataWrapper.t) (tr : trace) :
  queried (snd (DataWrapper.dtor this tr)) = queried tr.
Proof.
  pose proof (release_queried this tr) as Hrel.
  unfold DataWrapper.dtor, bind.
  destruct (DataWrapper.release this tr) as [this1 tr1]. exact Hrel.
Qed.
End DataWrapperQueries.

(** C8.  Over the whole life of a [DataWrapper] (construction, any
    sequence of [get] calls, destruction) at most one medium is alive at
    every instant of the trace; every format query is issued when none is
    alive, the one held before having been released; none is alive once
    the destructor has run; and every [get] does issue its query. *)
Theorem DataWrapper_one_live_medium
    (P : Platform) (d : IDataObject) (indeterminate : STGMEDIUM)
    (cfmts : list CLIPFORMAT) :
  let tr := snd (DataWrapper.lifetime d indeterminate cfmts []) in
  (forall n, (List.length (live_media (firstn n tr)) <= 1)%nat)
  /\ (forall n fmt hr medium,
        nth_error tr n = Some (EvGetData fmt hr medium) ->
        live_media (firstn n tr) = [])
  /\ live_media tr = []
  /\ queried tr = cfmts.
Proof.
  cbv zeta. unfold DataWrapper.lifetime, bind.
  pose proof (gets_in_step cfmts _ _ (ctor_in_step d indeterminate)) as Hin.
  pose proof (gets_queried cfmts (DataWrapper.ctor d indeterminate) [])
    as Hq.
  destruct (DataWrapper.gets (DataWrapper.ctor d indeterminate) cfmts [])
    as [this tr].
  cbn [fst snd] in Hin, Hq.
  destruct (dtor_in_step this tr Hin) as [[Hlen Hget] Hnone].
  pose proof (dtor_queried this tr) as Hq'.
  split; [exact Hlen | split; [exact Hget | split; [exact Hnone|]]].
  rewrite Hq', Hq. reflexivity.
Qed.

(** ** [getImage]: the priority chain *)

Section GetImageFacts.
Context {P : Platform} {C : Win32Contract P}.

Lemma release_m_data (this : DataWrapper.t) (tr : trace) :
  DataWrapper.m_data (fst (DataWrapper.release this tr))
  = DataWrapper.m_data this.
Proof.
  unfold DataWrapper.release.
  destruct (DataWrapper.m_result this =? S_OK); reflexivity.
Qed.

(** What the caller of [get] does with the buffer is what the table's
    entry does with the format. *)
Lemma get_attempt (this : DataWrapper.t) (cfmt : CLIPFORMAT) (tr : trace)
    (dec : GLocked -> option image) :
  let g := fst (fst (DataWrapper.get this cfmt tr)) in
  (if negb (g_data g =? NULL) then dec g else None)
  = attempt (DataWrapper.m_data this) cfmt dec.
Proof.
  cbv zeta. pose proof (release_m_data this tr) as Hd.
  unfold DataWrapper.get, bind, attempt, delivered, content_query.
  destruct (DataWrapper.release this tr) as [this1 tr1].
  cbn [fst snd] in *. rewrite Hd.
  destruct (GetData (DataWrapper.m_data this) _) as [hr medium].
  cbn. destruct (hr =? S_OK); cbn.
  - destruct (GlobalLock (hGlobal medium) =? NULL); reflexivity.
  - rewrite GlobalLock_NULL. reflexivity.
Qed.

(** Everything the proofs below need to know about one [get]. *)
Lemma get_facts (this : DataWrapper.t) (cfmt : CLIPFORMAT) (tr : trace)
    (dec : GLocked -> option image) :
  in_step this tr ->
  exists g this' tr',
    DataWrapper.get this cfmt tr = (g, this', tr')
    /\ (if negb (g_data g =? NULL) then dec g else None)
       = attempt (DataWrapper.m_data this) cfmt dec
    /\ DataWrapper.m_data this' = DataWrapper.m_data this
    /\ queried tr' = queried tr ++ [cfmt]
    /\ in_step this' tr'.
Proof.
  intros Hin.
  pose proof (get_attempt this cfmt tr dec) as Ha.
  pose proof (get_in_step this cfmt tr Hin) as [Hs Hd].
  pose proof (get_queried this cfmt tr) as Hq.
  destruct (DataWrapper.get this cfmt tr) as [[g this'] tr'].
  exists g, this', tr'. cbn in *. repeat split; try assumption; apply Hs.
Qed.

Lemma dtor_facts (this : DataWrapper.t) (tr : trace) :
  in_step this tr ->
  exists tr',
    DataWrapper.dtor this tr = (tt, tr')
    /\ queried tr' = queried tr
    /\ one_medium_at_a_time tr'
    /\ live_media tr' = [].
Proof.
  intros Hin.
  pose proof (dtor_in_step this tr Hin) as [Hg Hl].
  pose proof (dtor_queried this tr) as Hq.
  destruct (DataWrapper.dtor this tr) as [[] tr'].
  exists tr'. cbn in *. repeat split; try assumption; apply Hg.
Qed.

Lemma getImage_png_facts (this : DataWrapper.t) (tr : trace) :
  in_step this tr ->
  exists this' tr',
    DragDataProviderWin.getImage_png this tr
    = (if RegisterClipboardFormatA "PNG" =? 0 then None
       else attempt (DataWrapper.m_data this)
              (RegisterClipboardFormatA "PNG") decode_png,
       this', tr')
    /\ DataWrapper.m_data this' = DataWrapper.m_data this
    /\ queried tr'
       = queried tr ++ (if RegisterClipboardFormatA "PNG" =? 0 then []
                        else [RegisterClipboardFormatA "PNG"])
    /\ in_step this' tr'.
Proof.
  intros Hin. unfold DragDataProviderWin.getImage_png, truthy.
  destruct (RegisterClipboardFormatA "PNG" =? 0) eqn:Hreg; cbn [negb].
  - exists this, tr. rewrite app_nil_r. repeat split; apply Hin.
  - destruct (get_facts this (RegisterClipboardFormatA "PNG") tr
                decode_png Hin)
      as (g & this' & tr' & Hget & Ha & Hd & Hq & Hs).
    exists this', tr'. unfold bind. rewrite Hget, <- Ha.
    unfold decode_png.
    split; [|repeat split; try assumption; apply Hs].
    destruct (negb (g_data g =? NULL)); [|reflexivity].
    destruct (read_png (g_data g) (GLocked_size g)); reflexivity.
Qed.
End GetImageFacts.



(** ** [contains] *)

Lemma substring_whole (s : string) : substring 0 (String.length s) s = s.
Proof. induction s as [|c s IH]; cbn; [reflexivity | now rewrite IH]. Qed.

Lemma substring_empty (n : nat) (s : string) :
  substring 0 (S n) s = EmptyString <-> s = EmptyString.
Proof. destruct s; cbn; split; intros H; try reflexivity; discriminate H. Qed.

(** Cutting a name to 99 characters does not make it "PNG" unless it was. *)
Lemma truncated_is_PNG (n : nat) (s : string) :
  substring 0 (S (S (S (S n)))) s = "PNG"%string <-> s = "PNG"%string.
Proof.
  destruct s as [|a [|b [|c s]]]; cbn; split; intros H;
    try discriminate H; try assumption.
  - inversion H as [[Ha Hb Hc Hs]]. apply substring_empty in Hs.
    now subst.
  - inversion H as [[Ha Hb Hc Hs]]. reflexivity.
Qed.

Section ContainsFacts.
Context {P : Platform} {C : Win32Contract P}.

(** The name test of the [default] branch. *)
Lemma name_test (f : CLIPFORMAT) (name : string) :
  (let (namelen, name') := GetClipboardFormatNameA f name 100 in
   String.eqb (substring 0 (Z.to_nat namelen) name') "PNG") = true
  <-> registered_name f = Some "PNG"%string.
Proof.
  unfold GetClipboardFormatNameA.
  destruct (registered_name f) as [s|].
  - rewrite Nat2Z.id, substring_whole, String.eqb_eq.
    change (Z.to_nat (100 - 1)) with (S (S (S (S 95)))).
    rewrite truncated_is_PNG. split; [intros -> | intros [= ->]]; reflexivity.
  - cbn. replace (substring 0 0 name) with EmptyString
      by (destruct name; reflexivity).
    cbn. split; discriminate.
Qed.

Lemma contains_loop_Image (formats : list FORMATETC) :
  forall name,
    DragDataProviderWin.contains_loop Image formats name = true
    <-> Exists image_format formats.
Proof.
  induction formats as [|fmt rest IH]; intros name.
  - cbn. rewrite Exists_nil. split; [discriminate | tauto].
  - rewrite Exists_cons. cbn [DragDataProviderWin.contains_loop].
    unfold image_format at 1.
    destruct (cfFormat fmt =? CF_HDROP) eqn:Hh.
    { apply Z.eqb_eq in Hh. rewrite IH. rewrite Hh.
      split; [tauto|]. intros [[H | [H | H]] | H]; try discriminate H.
      - apply registered_range in H. unfold CF_HDROP in H. lia.
      - exact H. }
    destruct (cfFormat fmt =? CF_DIBV5) eqn:H5.
    { apply Z.eqb_eq in H5. tauto. }
    destruct (cfFormat fmt =? CF_DIB) eqn:Hd.
    { apply Z.eqb_eq in Hd. tauto. }
    apply Z.eqb_neq in H5, Hd.
    pose proof (name_test (cfFormat fmt) name) as Hname.
    destruct (GetClipboardFormatNameA (cfFormat fmt) name 100)
      as [namelen name'].
    rewrite andb_true_r.
    destruct (String.eqb (substring 0 (Z.to_nat namelen) name') "PNG").
    + split; [|reflexivity]. intros _. left. right. right.
      now apply Hname.
    + rewrite IH. split; [tauto|].
      intros [[H | [H | H]] | H]; try contradiction; [|exact H].
      apply Hname in H. discriminate H.
Qed.

Lemma contains_loop_Paths (formats : list FORMATETC) :
  forall name,
    DragDataProviderWin.contains_loop Paths formats name = true
    <-> Exists file_list_format formats.
Proof.
  induction formats as [|fmt rest IH]; intros name.
  - cbn. rewrite Exists_nil. split; [discriminate | tauto].
  - rewrite Exists_cons. cbn [DragDataProviderWin.contains_loop].
    unfold file_list_format at 1.
    destruct (cfFormat fmt =? CF_HDROP) eqn:Hh.
    { apply Z.eqb_eq in Hh. tauto. }
    apply Z.eqb_neq in Hh.
    destruct (cfFormat fmt =? CF_DIBV5); [rewrite IH; tauto|].
    destruct (cfFormat fmt =? CF_DIB); [rewrite IH; tauto|].
    destruct (GetClipboardFormatNameA (cfFormat fmt) name 100)
      as [namelen name'].
    rewrite andb_false_r, IH. tauto.
Qed.

Lemma contains_Image (d : IDataObject) (name : string) :
  DragDataProviderWin.contains d Image name = true
  <-> fst (EnumFormatEtc d DATADIR_GET) = S_OK
      /\ Exists image_format (snd (EnumFormatEtc d DATADIR_GET)).
Proof.
  unfold DragDataProviderWin.contains.
  destruct (EnumFormatEtc d DATADIR_GET) as [hr formats]. cbn [fst snd].
  destruct (hr =? S_OK) eqn:Hhr; cbn [negb].
  - apply Z.eqb_eq in Hhr. rewrite contains_loop_Image. tauto.
  - apply Z.eqb_neq in Hhr. split; [discriminate | tauto].
Qed.

Lemma contains_Paths (d : IDataObject) (name : string) :
  DragDataProviderWin.contains d Paths name = true
  <-> fst (EnumFormatEtc d DATADIR_GET) = S_OK
      /\ Exists file_list_format (snd (EnumFormatEtc d DATADIR_GET)).
Proof.
  unfold DragDataProviderWin.contains.
  destruct (EnumFormatEtc d DATADIR_GET) as [hr formats]. cbn [fst snd].
  destruct (hr =? S_OK) eqn:Hhr; cbn [negb].
  - apply Z.eqb_eq in Hhr. rewrite contains_loop_Paths. tauto.
  - apply Z.eqb_neq in Hhr. split; [discriminate | tauto].
Qed.
End ContainsFacts.

Lemma Exists_Permutation {A} (Q : A -> Prop) (l l' : list A) :
  Permutation l l' -> Exists Q l -> Exists Q l'.
Proof.
  intros Hp. rewrite !Exists_exists. intros [a [Hin Ha]].
  exists a. split; [eapply Permutation_in; eassumption | exact Ha].
Qed.

Lemma bool_eq_of_iff (a b : bool) : (a = true <-> b = true) -> a = b.
Proof.
  destruct a, b; intros [H1 H2]; try reflexivity.
  - symmetry. now apply H1.
  - now apply H2.
Qed.

(** C7.  [contains(Image)] is true exactly when the enumeration of formats
    can be started and one of the advertised formats is the extended
    bitmap, the legacy bitmap, or a format registered under the name
    "PNG"; [contains(Paths)] is true exactly when the enumeration can be
    started and the file-list format is advertised; [contains] is false
    when the enumeration cannot be started; and the answer does not depend
    on the order of the advertised formats, nor on what the name buffer
    held. *)
Theorem contains_advertised_formats
    (P : Platform) (C : Win32Contract P)
    (d : IDataObject) (name : string) :
  (DragDataProviderWin.contains d Image name = true
   <-> fst (EnumFormatEtc d DATADIR_GET) = S_OK
       /\ Exists image_format (snd (EnumFormatEtc d DATADIR_GET)))
  /\ (DragDataProviderWin.contains d Paths name = true
      <-> fst (EnumFormatEtc d DATADIR_GET) = S_OK
          /\ Exists file_list_format (snd (EnumFormatEtc d DATADIR_GET)))
  /\ (fst (EnumFormatEtc d DATADIR_GET) <> S_OK ->
      forall type, DragDataProviderWin.contains d type name = false)
  /\ (forall d' name' type,
        fst (EnumFormatEtc d' DATADIR_GET) = fst (EnumFormatEtc d DATADIR_GET) ->
        Permutation (snd (EnumFormatEtc d' DATADIR_GET))
                    (snd (EnumFormatEtc d DATADIR_GET)) ->
        DragDataProviderWin.contains d' type name'
        = DragDataProviderWin.contains d type name).
Proof.
  split; [apply contains_Image | split; [apply contains_Paths | split]].
  - intros Hhr type. unfold DragDataProviderWin.contains.
    destruct (EnumFormatEtc d DATADIR_GET) as [hr formats]. cbn in Hhr.
    apply Z.eqb_neq in Hhr. now rewrite Hhr.
  - intros d' name' type Hhr Hperm. apply bool_eq_of_iff.
    destruct type.
    + rewrite !contains_Paths, Hhr.
      split; intros [H1 H2]; (split; [exact H1|]);
        eapply Exists_Permutation; try eassumption.
      now apply Permutation_sym.
    + rewrite !contains_Image, Hhr.
      split; intros [H1 H2]; (split; [exact H1|]);
        eapply Exists_Permutation; try eassumption.
      now apply Permutation_sym.
Qed.

Lemma contains_advertised_formats_witness :
  @DragDataProviderWin.contains sample_platform sample_data Image "stale"
  = true.
Proof.
  apply (proj1 (contains_advertised_formats sample_platform
                  sample_platform_contract sample_data "stale")).
  split; [reflexivity|].
  apply Exists_cons_hd. right. right. reflexivity.
Defined.

(** ** Reference counting *)

Lemma AddRef_returns_stored (this : DragTargetAdapter.t) :
  fst (DragTargetAdapter.AddRef this)
  = DragTargetAdapter.m_ref (snd (DragTargetAdapter.AddRef this)).
Proof. reflexivity. Qed.

Lemma Release_returns_stored (this : DragTargetAdapter.t) :
  fst (fst (DragTargetAdapter.Release this))
  = DragTargetAdapter.m_ref (snd (fst (DragTargetAdapter.Release this))).
Proof.
  unfold DragTargetAdapter.Release.
  destruct (0 =? _); reflexivity.
Qed.

Lemma AddRef_lawful (this : DragTargetAdapter.t) :
  0 <= DragTargetAdapter.m_ref this ->
  DragTargetAdapter.m_ref this + 1 < ULONG_modulus ->
  refcall_run this CallAddRef
  = ({| rc_call := CallAddRef;
        rc_before := DragTargetAdapter.m_ref this;
        rc_returned := DragTargetAdapter.m_ref this + 1;
        rc_after := DragTargetAdapter.m_ref this + 1;
        rc_deleted := false |},
     DragTargetAdapter.set_m_ref this (DragTargetAdapter.m_ref this + 1)).
Proof.
  intros H0 H1. unfold refcall_run, DragTargetAdapter.AddRef.
  rewrite Z.mod_small by lia. reflexivity.
Qed.

Lemma Release_lawful (this : DragTargetAdapter.t) :
  1 <= DragTargetAdapter.m_ref this < ULONG_modulus ->
  refcall_run this CallRelease
  = ({| rc_call := CallRelease;
        rc_before := DragTargetAdapter.m_ref this;
        rc_returned := DragTargetAdapter.m_ref this - 1;
        rc_after := DragTargetAdapter.m_ref this - 1;
        rc_deleted := (0 =? DragTargetAdapter.m_ref this - 1) |},
     DragTargetAdapter.set_m_ref this (DragTargetAdapter.m_ref this - 1)).
Proof.
  intros H. unfold refcall_run, DragTargetAdapter.Release.
  rewrite Z.mod_small by lia.
  destruct (0 =? DragTargetAdapter.m_ref this - 1); reflexivity.
Qed.

(** One lawful call: it returns the new count, and it is either quiet or a
    [Release] that saw zero and deleted the adapter. *)
Lemma lawful_call (this : DragTargetAdapter.t) (c : refcall) :
  0 <= DragTargetAdapter.m_ref this < ULONG_modulus ->
  match c with
  | CallAddRef => DragTargetAdapter.m_ref this + 1 < ULONG_modulus
  | CallRelease => 1 <= DragTargetAdapter.m_ref this
  end ->
  let r := fst (refcall_run this c) in
  returned_new_count r
  /\ rc_returned r = DragTargetAdapter.m_ref (snd (refcall_run this c))
  /\ (quiet r
      \/ (rc_call r = CallRelease /\ rc_returned r = 0
          /\ rc_deleted r = true)).
Proof.
  intros Hrange Hc. cbv zeta. unfold returned_new_count, quiet. destruct c.
  - rewrite AddRef_lawful by lia.
    cbn [fst snd rc_call rc_returned rc_before rc_deleted
         DragTargetAdapter.set_m_ref DragTargetAdapter.m_ref].
    split; [reflexivity | split; [reflexivity|]].
    left. split; [reflexivity | lia].
  - rewrite Release_lawful by lia.
    cbn [fst snd rc_call rc_returned rc_before rc_deleted
         DragTargetAdapter.set_m_ref DragTargetAdapter.m_ref].
    split; [reflexivity | split; [reflexivity|]].
    destruct (0 =? DragTargetAdapter.m_ref this - 1) eqn:Hz.
    + apply Z.eqb_eq in Hz. right.
      split; [reflexivity | split; [lia | reflexivity]].
    + apply Z.eqb_neq in Hz. left. split; [reflexivity | lia].
Qed.

Lemma history_returns (h : list refcall) :
  forall this,
    lawful this h ->
    Forall returned_new_count (fst (history_run this h)).
Proof.
  induction h as [|c h IH]; intros this Hlaw.
  - constructor.
  - cbn [lawful] in Hlaw. destruct Hlaw as (Hrange & Hc & _ & Hrest).
    pose proof (lawful_call this c Hrange Hc) as Hcall.
    cbv zeta in Hcall. destruct Hcall as [Hret _].
    specialize (IH _ Hrest). cbn [history_run].
    destruct (refcall_run this c) as [r this'].
    cbn [fst snd] in *.
    destruct (history_run this' h) as [rs this''].
    cbn [fst snd] in *. constructor; assumption.
Qed.

(** A lawful history that ends at zero ends with a [Release] that saw
    zero and deleted the adapter; every call before it was quiet. *)
Lemma history_shape (h : list refcall) :
  forall this,
    lawful this h ->
    h <> [] ->
    DragTargetAdapter.m_ref (snd (history_run this h)) = 0 ->
    exists log0 r,
      fst (history_run this h) = log0 ++ [r]
      /\ rc_call r = CallRelease
      /\ rc_returned r = 0
      /\ rc_deleted r = true
      /\ Forall quiet log0.
Proof.
  induction h as [|c h IH]; intros this Hlaw Hne Hzero; [contradiction|].
  cbn [lawful] in Hlaw. destruct Hlaw as (Hrange & Hc & Hlast & Hrest).
  pose proof (lawful_call this c Hrange Hc) as Hcall.
  cbv zeta in Hcall. destruct Hcall as (_ & Hstored & Hkind).
  cbn [history_run] in Hzero |- *.
  destruct (refcall_run this c) as [r this'] eqn:Hrun.
  cbn [fst snd] in *.
  destruct h as [|c' h'].
  - cbn [history_run fst snd] in *. exists [], r.
    destruct Hkind as [[_ Hnz] | (Hr & Hz & Hd)].
    + congruence.
    + split; [reflexivity|]. split; [exact Hr|]. split; [exact Hz|].
      split; [exact Hd | constructor].
  - destruct Hkind as [Hq | (_ & _ & Hd)];
      [|specialize (Hlast Hd); discriminate Hlast].
    assert (Hne' : c' :: h' <> []) by discriminate.
    specialize (IH this' Hrest Hne').
    destruct (history_run this' (c' :: h')) as [rs this''].
    cbn [fst snd] in *.
    destruct (IH Hzero) as (log0 & r' & Hlog & H1 & H2 & H3 & H4).
    exists (r :: log0), r'. subst rs.
    split; [reflexivity|]. split; [exact H1|]. split; [exact H2|].
    split; [exact H3 | constructor; assumption].
Qed.

Lemma destructions_shape (log0 : list refcall_record) (r : refcall_record) :
  Forall quiet log0 -> rc_deleted r = true ->
  destructions (log0 ++ [r]) = 1%nat.
Proof.
  intros Hq Hd. unfold destructions. rewrite filter_app, length_app.
  cbn. rewrite Hd. cbn.
  induction Hq as [|r' log0 [Hr' _] _ IH]; [reflexivity|].
  cbn. rewrite Hr'. exact IH.
Qed.

Lemma releases_seeing_zero_shape
    (log0 : list refcall_record) (r : refcall_record) :
  Forall quiet log0 -> rc_call r = CallRelease -> rc_returned r = 0 ->
  releases_seeing_zero (log0 ++ [r]) = 1%nat.
Proof.
  intros Hq Hc Hz. unfold releases_seeing_zero.
  rewrite filter_app, length_app. cbn. rewrite Hc, Hz. cbn.
  induction Hq as [|r' log0 [_ Hr'] _ IH]; [reflexivity|].
  cbn. apply Z.eqb_neq in Hr'. rewrite Hr'.
  destruct (rc_call r'); exact IH.
Qed.

(** Any call at all, at any count. *)
Lemma any_call_counted (this : DragTargetAdapter.t) (c : refcall) :
  counted (fst (refcall_run this c)).
Proof.
  unfold counted. destruct c.
  - cbn. split; [reflexivity | split; [reflexivity|]].
    split; [discriminate | intros [H _]; discriminate H].
  - unfold refcall_run, DragTargetAdapter.Release.
    destruct (0 =? (DragTargetAdapter.m_ref this - 1) mod ULONG_modulus)
      eqn:Hz; cbn [fst snd rc_call rc_before rc_returned rc_after
                   rc_deleted DragTargetAdapter.set_m_ref
                   DragTargetAdapter.m_ref].
    + apply Z.eqb_eq in Hz.
      split; [reflexivity | split; [reflexivity|]].
      split; [intros _; split; [reflexivity | now symmetry] | reflexivity].
    + apply Z.eqb_neq in Hz.
      split; [reflexivity | split; [reflexivity|]].
      split; [discriminate | intros [_ H]; congruence].
Qed.

Lemma history_counted (h : list refcall) :
  forall this, Forall counted (fst (history_run this h)).
Proof.
  induction h as [|c h IH]; intros this; [constructor|].
  cbn [history_run].
  pose proof (any_call_counted this c) as Hc.
  destruct (refcall_run this c) as [r this'].
  specialize (IH this').
  destruct (history_run this' h) as [rs this''].
  cbn [fst snd] in *. constructor; assumption.
Qed.

(** Deletions are counted by the releases that saw zero. *)
Lemma destructions_counted (log : list refcall_record) :
  Forall counted log -> destructions log = releases_seeing_zero log.
Proof.
  unfold destructions, releases_seeing_zero.
  induction 1 as [|r log (_ & _ & Hdel) _ IH]; [reflexivity|].
  cbn [filter].
  destruct (rc_deleted r) eqn:Hd.
  - destruct (proj1 Hdel eq_refl) as [Hc Hz]. rewrite Hc, Hz.
    cbn. now rewrite IH.
  - destruct (rc_call r) eqn:Hc; [exact IH|].
    destruct (rc_returned r =? 0) eqn:Hz; [|exact IH].
    apply Z.eqb_eq in Hz.
    assert (false = true) as Habs by (apply Hdel; now split).
    discriminate Habs.
Qed.

(** A history in which every call finds a live adapter deletes it at
    most once. *)
Lemma lawful_at_most_once (h : list refcall) :
  forall this,
    lawful this h ->
    (destructions (fst (history_run this h)) <= 1)%nat.
Proof.
  induction h as [|c h IH]; intros this Hlaw; [cbn; lia|].
  cbn [lawful] in Hlaw. destruct Hlaw as (_ & _ & Hlast & Hrest).
  specialize (IH _ Hrest). cbn [history_run].
  destruct (refcall_run this c) as [r this'].
  cbn [fst snd] in *.
  destruct (history_run this' h) as [rs this''] eqn:Hrun.
  cbn [fst snd] in *. unfold destructions in *. cbn [filter].
  destruct (rc_deleted r) eqn:Hd; [|exact IH].
  rewrite (Hlast eq_refl) in Hrun. cbn in Hrun.
  injection Hrun as <- _. cbn. lia.
Qed.

Lemma disciplined_none (t : list refcall) : disciplined 0 t -> t = [].
Proof. destruct t as [|[|] t]; cbn; [reflexivity | lia | lia]. Qed.

Lemma interleaving_nil_inv {A} (h : list A) : interleaving [] [] h -> h = [].
Proof. intros H. inversion H. reflexivity. Qed.

Lemma interleaving_length {A} (t1 t2 h : list A) :
  interleaving t1 t2 h ->
  List.length h = (List.length t1 + List.length t2)%nat.
Proof. induction 1; cbn; lia. Qed.

(** One call by a thread that holds [own] of the [own + other] references
    counted: it finds a live adapter, the count follows the thread's
    holdings, and if it deletes the adapter then nobody holds a reference
    any more. *)
Lemma disciplined_call (this : DragTargetAdapter.t) (c : refcall)
    (own other : nat) :
  DragTargetAdapter.m_ref this = Z.of_nat own + Z.of_nat other ->
  (1 <= own)%nat ->
  Z.of_nat own + Z.of_nat other + 1 < ULONG_modulus ->
  let own' := match c with
              | CallAddRef => S own
              | CallRelease => (own - 1)%nat
              end in
  0 <= DragTargetAdapter.m_ref this < ULONG_modulus
  /\ match c with
     | CallAddRef => DragTargetAdapter.m_ref this + 1 < ULONG_modulus
     | CallRelease => 1 <= DragTargetAdapter.m_ref this
     end
  /\ DragTargetAdapter.m_ref (snd (refcall_run this c))
     = Z.of_nat own' + Z.of_nat other
  /\ (rc_deleted (fst (refcall_run this c)) = true ->
      own' = 0%nat /\ other = 0%nat).
Proof.
  intros Hcount Hown Hroom. cbv zeta.
  split; [lia|]. split; [destruct c; lia|].
  destruct c.
  - rewrite AddRef_lawful by lia.
    cbn [fst snd rc_deleted DragTargetAdapter.set_m_ref
         DragTargetAdapter.m_ref].
    split; [lia | discriminate].
  - rewrite Release_lawful by lia.
    cbn [fst snd rc_deleted DragTargetAdapter.set_m_ref
         DragTargetAdapter.m_ref].
    split; [lia|]. intros Hz. apply Z.eqb_eq in Hz. lia.
Qed.

(** Threads that keep COM's rule never call a deleted adapter, in any
    interleaving, and the count is at every moment the number of
    references they hold. *)
Lemma disciplined_lawful (t1 t2 h : list refcall) :
  interleaving t1 t2 h ->
  forall (own1 own2 : nat) (this : DragTargetAdapter.t),
    disciplined own1 t1 ->
    disciplined own2 t2 ->
    DragTargetAdapter.m_ref this = Z.of_nat own1 + Z.of_nat own2 ->
    Z.of_nat own1 + Z.of_nat own2 + Z.of_nat (List.length h)
      < ULONG_modulus ->
    lawful this h
    /\ DragTargetAdapter.m_ref (snd (history_run this h))
       = Z.of_nat (held_after own1 t1) + Z.of_nat (held_after own2 t2).
Proof.
  induction 1 as [|a t1 t2 h Hil IH | a t1 t2 h Hil IH];
    intros own1 own2 this H1 H2 Hcount Hroom.
  - cbn. split; [exact I | exact Hcount].
  - assert (Hown : (1 <= own1)%nat) by (destruct a; apply H1).
    cbn [List.length] in Hroom.
    destruct (disciplined_call this a own1 own2 Hcount Hown ltac:(lia))
      as (Hrange & Hc & Hnext & Hdel).
    assert (H1' : disciplined match a with
                              | CallAddRef => S own1
                              | CallRelease => (own1 - 1)%nat
                              end t1) by (destruct a; apply H1).
    destruct (IH _ own2 (snd (refcall_run this a)) H1' H2 Hnext)
      as [Hlaw Hfinal]; [destruct a; lia|].
    cbn [lawful history_run held_after].
    destruct (refcall_run this a) as [r this'] eqn:Hrun.
    cbn [fst snd] in *.
    destruct (history_run this' h) as [rs this''].
    cbn [fst snd] in *.
    split.
    + split; [exact Hrange|]. split; [exact Hc|]. split; [|exact Hlaw].
      intros Hd. destruct (Hdel Hd) as [Hz1 Hz2].
      rewrite Hz1 in H1'. subst own2.
      apply disciplined_none in H1'. apply disciplined_none in H2.
      subst. now apply interleaving_nil_inv.
    + destruct a; exact Hfinal.
  - assert (Hown : (1 <= own2)%nat) by (destruct a; apply H2).
    cbn [List.length] in Hroom.
    assert (Hcount' : DragTargetAdapter.m_ref this
                      = Z.of_nat own2 + Z.of_nat own1) by lia.
    destruct (disciplined_call this a own2 own1 Hcount' Hown ltac:(lia))
      as (Hrange & Hc & Hnext & Hdel).
    assert (H2' : disciplined match a with
                              | CallAddRef => S own2
                              | CallRelease => (own2 - 1)%nat
                              end t2) by (destruct a; apply H2).
    destruct (IH own1 _ (snd (refcall_run this a)) H1 H2')
      as [Hlaw Hfinal]; [lia | destruct a; lia|].
    cbn [lawful history_run held_after].
    destruct (refcall_run this a) as [r this'] eqn:Hrun.
    cbn [fst snd] in *.
    destruct (history_run this' h) as [rs this''].
    cbn [fst snd] in *.
    split.
    + split; [exact Hrange|]. split; [exact Hc|]. split; [|exact Hlaw].
      intros Hd. destruct (Hdel Hd) as [Hz2 Hz1].
      rewrite Hz2 in H2'. subst own1.
      apply disciplined_none in H1. apply disciplined_none in H2'.
      subst. now apply interleaving_nil_inv.
    + destruct a; exact Hfinal.
Qed.




(** ** [mapCursorButton] *)

Lemma array_read_in_bounds (a : list Z) (i : Z) :
  0 <= i < Z.of_nat (List.length a) ->
  exists v, WintabAPI.array_read a i = Some v.
Proof.
  intros Hi. unfold WintabAPI.array_read.
  destruct (i <? 0) eqn:Hneg; [apply Z.ltb_lt in Hneg; lia|].
  destruct (nth_error a (Z.to_nat i)) as [v|] eqn:Hnth.
  - now exists v.
  - apply nth_error_None in Hnth. lia.
Qed.

(** C10.  [mapCursorButton] never reads the 32-entry button map outside
    its bounds.  For a logical button outside [0, 32) it returns before
    the map is touched, with [mouseButton] equal to [NoneButton] and
    [evType] fixed by [relativeButton] alone: [MouseDown] for [TBN_DOWN],
    [MouseUp] for [TBN_UP], [MouseMove] otherwise.  In every case the call
    is defined, and when the map is read it is read at [logicalButton]
    with [0 <= logicalButton < 32]. *)
Theorem mapCursorButton_in_bounds
    (WTInfo : Z -> Z -> list Z) (cursor logicalButton relativeButton : Z)
    (Hmap : List.length (WTInfo (WintabAPI.WTI_CURSORS + cursor)
                           WintabAPI.CSR_SYSBTNMAP) = 32%nat) :
  let r := WintabAPI.mapCursorButton WTInfo cursor logicalButton
             relativeButton in
  (logicalButton < 0 \/ 32 <= logicalButton ->
   r = Some {| WintabAPI.evType :=
                 if relativeButton =? WintabAPI.TBN_DOWN
                 then WintabAPI.MouseDown
                 else if relativeButton =? WintabAPI.TBN_UP
                      then WintabAPI.MouseUp
                      else WintabAPI.MouseMove;
               WintabAPI.mouseButton := WintabAPI.NoneButton;
               WintabAPI.map_read_at := None |})
  /\ (exists o, r = Some o)
  /\ (forall o i,
        r = Some o -> WintabAPI.map_read_at o = Some i ->
        i = logicalButton /\ 0 <= logicalButton < 32).
Proof.
  cbv zeta. unfold WintabAPI.mapCursorButton.
  destruct ((logicalButton <? 0) || (logicalButton >=? 32)) eqn:Hout.
  - split; [intros _; reflexivity|].
    split; [eexists; reflexivity|].
    intros o i [= <-] Hread. discriminate Hread.
  - apply orb_false_iff in Hout. destruct Hout as [Hlo Hhi].
    apply Z.ltb_ge in Hlo. rewrite Z.geb_leb in Hhi.
    apply Z.leb_gt in Hhi.
    split; [intros [H | H]; lia|].
    destruct (array_read_in_bounds
                (WTInfo (WintabAPI.WTI_CURSORS + cursor)
                        WintabAPI.CSR_SYSBTNMAP) logicalButton)
      as [action Haction]; [rewrite Hmap; lia|].
    rewrite Haction.
    destruct (WintabAPI.second_switch action _ _) as [evType mouseButton].
    split; [eexists; reflexivity|].
    intros o i [= <-] [= <-]. split; [reflexivity | lia].
Qed.

Lemma mapCursorButton_in_bounds_witness :
  WintabAPI.mapCursorButton sample_WTInfo 0 40 WintabAPI.TBN_DOWN
  = Some {| WintabAPI.evType := WintabAPI.MouseDown;
            WintabAPI.mouseButton := WintabAPI.NoneButton;
            WintabAPI.map_read_at := None |}.
Proof.
  apply (proj1 (mapCursorButton_in_bounds sample_WTInfo 0 40
                  WintabAPI.TBN_DOWN eq_refl)).
  right. lia.
Defined.

(** * Further properties of [os/win/dnd.cpp] *)

(** ** The effect masks *)

Lemma as_dropeffect_bounds (E : DropOperationEnum) (op : Z) :
  0 <= as_dropeffect op <= 7.
Proof.
  unfold as_dropeffect.
  destruct (truthy (Z.land op DropOperation_Copy)),
           (truthy (Z.land op DropOperation_Move)),
           (truthy (Z.land op DropOperation_Link));
    cbv [DROPEFFECT_NONE DROPEFFECT_COPY DROPEFFECT_MOVE DROPEFFECT_LINK];
    cbn; lia.
Qed.

(** X1.  Whatever the operation value, [as_dropeffect] yields a
    combination of [DROPEFFECT_COPY], [DROPEFFECT_MOVE] and
    [DROPEFFECT_LINK] and nothing else: a number from 0 to 7, without the
    scroll flag. *)
Theorem as_dropeffect_recognised_bits (E : DropOperationEnum) (op : Z) :
  0 <= as_dropeffect op <= 7
  /\ Z.land (as_dropeffect op) DROPEFFECT_SCROLL = 0
  /\ Z.land (as_dropeffect op)
            (Z.lor (Z.lor DROPEFFECT_COPY DROPEFFECT_MOVE) DROPEFFECT_LINK)
     = as_dropeffect op.
Proof.
  unfold as_dropeffect.
  destruct (truthy (Z.land op DropOperation_Copy)),
           (truthy (Z.land op DropOperation_Move)),
           (truthy (Z.land op DropOperation_Link));
    cbv [DROPEFFECT_NONE DROPEFFECT_COPY DROPEFFECT_MOVE DROPEFFECT_LINK
         DROPEFFECT_SCROLL]; cbn;
    (split; [lia | split; reflexivity]).
Qed.

Lemma land_low_bit (e b : Z) :
  Z.land 7 b = b -> Z.land (Z.land e 7) b = Z.land e b.
Proof. intros Hb. now rewrite <- Z.land_assoc, Hb. Qed.

Lemma as_dropoperation_low_bits (E : DropOperationEnum) (e : Z) :
  as_dropoperation (Z.land e 7) = as_dropoperation e.
Proof.
  unfold as_dropoperation, DROPEFFECT_COPY, DROPEFFECT_MOVE, DROPEFFECT_LINK.
  rewrite !land_low_bit by reflexivity. reflexivity.
Qed.

Lemma low_bits_cases (e : Z) :
  Z.land e 7 = 0 \/ Z.land e 7 = 1 \/ Z.land e 7 = 2 \/ Z.land e 7 = 3
  \/ Z.land e 7 = 4 \/ Z.land e 7 = 5 \/ Z.land e 7 = 6 \/ Z.land e 7 = 7.
Proof.
  assert (Hmod : Z.land e 7 = e mod 8).
  { change 7 with (Z.ones 3). now rewrite Z.land_ones by lia. }
  pose proof (Z.mod_pos_bound e 8 ltac:(lia)) as H.
  rewrite Hmod. lia.
Qed.

(** X2.  Decoding ignores every native bit other than copy, move and
    link, and encoding the decoded value gives back exactly those three
    bits of the native effect. *)
Theorem native_effect_round_trip
    (E : DropOperationEnum) (B : DropOperationBitSet E) (pdwEffect : DWORD) :
  as_dropoperation pdwEffect = as_dropoperation (Z.land pdwEffect 7)
  /\ as_dropeffect (as_dropoperation pdwEffect) = Z.land pdwEffect 7.
Proof.
  split; [now rewrite as_dropoperation_low_bits|].
  rewrite <- as_dropoperation_low_bits.
  assert (Hset : forall c m l : bool,
            as_dropeffect
              (Z.lor (Z.lor (Z.lor 0 (if c then DropOperation_Copy else 0))
                            (if m then DropOperation_Move else 0))
                     (if l then DropOperation_Link else 0))
            = Z.lor (Z.lor (if c then DROPEFFECT_COPY else 0)
                           (if m then DROPEFFECT_MOVE else 0))
                    (if l then DROPEFFECT_LINK else 0)).
  { intros c m l. rewrite <- as_dropeffect_operation_set.
    unfold operation_set. now rewrite None_no_bits. }
  assert (Hop : forall e,
            as_dropoperation e
            = Z.lor (Z.lor (Z.lor 0 (if truthy (Z.land e DROPEFFECT_COPY)
                                     then DropOperation_Copy else 0))
                           (if truthy (Z.land e DROPEFFECT_MOVE)
                            then DropOperation_Move else 0))
                    (if truthy (Z.land e DROPEFFECT_LINK)
                     then DropOperation_Link else 0)).
  { intros e. unfold as_dropoperation.
    destruct (truthy (Z.land e DROPEFFECT_COPY)),
             (truthy (Z.land e DROPEFFECT_MOVE)),
             (truthy (Z.land e DROPEFFECT_LINK));
      rewrite ?Z.lor_0_r; reflexivity. }
  rewrite Hop, Hset.
  destruct (low_bits_cases pdwEffect)
    as [H|[H|[H|[H|[H|[H|[H|H]]]]]]]; rewrite H; reflexivity.
Qed.

Lemma native_effect_round_trip_witness :
  @as_dropeffect laf_DropOperation
    (@as_dropoperation laf_DropOperation (0x80000003)) = 3.
Proof.
  exact (proj2 (native_effect_round_trip laf_DropOperation
                  laf_DropOperation_BitSet 0x80000003)).
Defined.

(** ** The session callbacks, one at a time *)

(** X3.  On a window that has a drag target, [DragEnter] and [Drop] given
    a transfer object, and [DragOver] in any case, return [S_OK] whatever
    the window answers; the effect written back is a combination of copy,
    move and link only; and when the window's answer has none of the three
    operations, as when it declines, the effect is [DROPEFFECT_NONE]. *)
Theorem callbacks_succeed_when_declined
    (E : DropOperationEnum) (P : Platform)
    (w : Window) (a : DragTargetAdapter.t) (d : IDataObject)
    (grf : DWORD) (pt : POINTL) (eff : DWORD)
    (Hw : hasDragTarget w = true) :
  let enter := DragTargetAdapter.DragEnter w a (Some d) grf pt eff in
  let over := DragTargetAdapter.DragOver w a grf pt eff in
  let drop := DragTargetAdapter.Drop w a (Some d) grf pt eff in
  (DragTargetAdapter.status enter = S_OK
   /\ DragTargetAdapter.status over = S_OK
   /\ DragTargetAdapter.status drop = S_OK)
  /\ (0 <= DragTargetAdapter.effect enter <= 7
      /\ 0 <= DragTargetAdapter.effect over <= 7
      /\ 0 <= DragTargetAdapter.effect drop <= 7)
  /\ ((forall ev, as_dropeffect (notifyDragEnter w ev) = DROPEFFECT_NONE) ->
      DragTargetAdapter.effect enter = DROPEFFECT_NONE)
  /\ ((forall ev, as_dropeffect (notifyDrag w ev) = DROPEFFECT_NONE) ->
      DragTargetAdapter.effect over = DROPEFFECT_NONE)
  /\ ((forall ev, as_dropeffect (notifyDrop w ev) = DROPEFFECT_NONE) ->
      DragTargetAdapter.effect drop = DROPEFFECT_NONE).
Proof.
  cbv zeta.
  unfold DragTargetAdapter.DragEnter, DragTargetAdapter.DragOver,
    DragTargetAdapter.Drop.
  rewrite Hw.
  cbn [negb DragTargetAdapter.set_m_data DragTargetAdapter.m_data
       DragTargetAdapter.status DragTargetAdapter.effect].
  split; [repeat split|].
  split; [repeat split; apply as_dropeffect_bounds|].
  split; [|split]; intros Hnone; apply Hnone.
Qed.

Lemma callbacks_succeed_when_declined_witness :
  DragTargetAdapter.status
    (@DragTargetAdapter.Drop laf_DropOperation sample_platform
       sample_window sample_entered (Some sample_data) 0
       {| pt_x := 105; pt_y := 57 |} 7) = S_OK.
Proof.
  pose proof (callbacks_succeed_when_declined laf_DropOperation
                sample_platform sample_window sample_entered sample_data 0
                {| pt_x := 105; pt_y := 57 |} 7 eq_refl) as H.
  cbv zeta in H. exact (proj2 (proj2 (proj1 H))).
Defined.

(** X4.  [DragOver] after [DragEnter]: the event the window receives
    carries a provider over the transfer object that Enter stored and the
    window-local position of the Over point; the adapter keeps that object
    and its count, and stores the new position. *)
Theorem DragOver_forwards_entered_object
    (E : DropOperationEnum) (P : Platform)
    (w1 w2 : Window) (a : DragTargetAdapter.t) (d : IDataObject)
    (grf1 grf2 : DWORD) (pt1 pt2 : POINTL) (eff1 eff2 : DWORD)
    (Hw1 : hasDragTarget w1 = true) (Hw2 : hasDragTarget w2 = true) :
  let entered :=
    DragTargetAdapter.adapter
      (DragTargetAdapter.DragEnter w1 a (Some d) grf1 pt1 eff1) in
  DragTargetAdapter.DragOver w2 entered grf2 pt2 eff2
  = {| DragTargetAdapter.status := S_OK;
       DragTargetAdapter.adapter :=
         {| DragTargetAdapter.m_ref := DragTargetAdapter.m_ref a;
            DragTargetAdapter.m_data := Some d;
            DragTargetAdapter.m_position :=
              drag_position (nativeHandle w2) pt2 |};
       DragTargetAdapter.effect :=
         as_dropeffect
           (notifyDrag w2
              {| supportedOperations := as_dropoperation eff2;
                 position := drag_position (nativeHandle w2) pt2;
                 dataProvider :=
                   {| DragDataProviderWin.m_data := Some d |} |}) |}.
Proof.
  cbv zeta. rewrite (DragEnter_object w1 a d grf1 pt1 eff1 Hw1).
  unfold DragTargetAdapter.DragOver. rewrite Hw2. reflexivity.
Qed.

Lemma DragOver_forwards_entered_object_witness :
  DragTargetAdapter.adapter
    (@DragTargetAdapter.DragOver laf_DropOperation sample_platform
       sample_window
       (DragTargetAdapter.adapter
          (@DragTargetAdapter.DragEnter laf_DropOperation sample_platform
             sample_window (DragTargetAdapter.idle 1) (Some sample_data) 0
             {| pt_x := 105; pt_y := 57 |} 1))
       0 {| pt_x := 110; pt_y := 60 |} 1)
  = {| DragTargetAdapter.m_ref := 1;
       DragTargetAdapter.m_data := Some sample_data;
       DragTargetAdapter.m_position := {| x := 10; y := 10 |} |}.
Proof.
  pose proof (DragOver_forwards_entered_object laf_DropOperation
                sample_platform sample_window sample_window
                (DragTargetAdapter.idle 1) sample_data 0 0
                {| pt_x := 105; pt_y := 57 |} {| pt_x := 110; pt_y := 60 |}
                1 1 eq_refl eq_refl) as H.
  cbv zeta in H. rewrite H. reflexivity.
Defined.

(** ** Sequences of session callbacks *)

Section SessionRunFacts.
Context {E : DropOperationEnum} {P : Platform}.

Lemma callback_run_m_ref (a : DragTargetAdapter.t) (c : callback) :
  DragTargetAdapter.m_ref (snd (callback_run a c))
  = DragTargetAdapter.m_ref a.
Proof.
  destruct c as [w p grf pt eff | w grf pt eff | w | w p grf pt eff];
    cbn [callback_run];
    unfold DragTargetAdapter.DragEnter, DragTargetAdapter.DragOver,
      DragTargetAdapter.DragLeave, DragTargetAdapter.Drop;
    destruct (hasDragTarget w); try destruct p; reflexivity.
Qed.

(** After one callback the adapter holds nothing, or what it held, or the
    object this callback is a [DragEnter] of. *)
Lemma callback_run_m_data (a : DragTargetAdapter.t) (c : callback) :
  match DragTargetAdapter.m_data (snd (callback_run a c)) with
  | None => True
  | Some d =>
    DragTargetAdapter.m_data a = Some d \/ In d (entered_objects [c])
  end.
Proof.
  destruct c as [w p grf pt eff | w grf pt eff | w | w p grf pt eff];
    cbn [callback_run];
    unfold DragTargetAdapter.DragEnter, DragTargetAdapter.DragOver,
      DragTargetAdapter.DragLeave, DragTargetAdapter.Drop;
    destruct (hasDragTarget w); try destruct p; cbn;
    try exact I;
    try (destruct (DragTargetAdapter.m_data a); [left; reflexivity | exact I]).
  right. left. reflexivity.
Qed.

Lemma entered_objects_app (cs1 cs2 : list callback) :
  entered_objects (cs1 ++ cs2) = entered_objects cs1 ++ entered_objects cs2.
Proof.
  induction cs1 as [|c cs1 IH]; [reflexivity|].
  destruct c as [w [d|] grf pt eff | w grf pt eff | w | w p grf pt eff];
    cbn; now rewrite IH.
Qed.

Lemma session_run_snoc (a : DragTargetAdapter.t) (cs : list callback)
    (c : callback) :
  session_run a (cs ++ [c]) = snd (callback_run (session_run a cs) c).
Proof. unfold session_run. now rewrite fold_left_app. Qed.

Lemma ending_callback_releases (a : DragTargetAdapter.t) (c : callback) :
  ends_session c = true ->
  hasDragTarget (callback_window c) = true ->
  DragTargetAdapter.m_data (snd (callback_run a c)) = None.
Proof.
  destruct c as [w p grf pt eff | w grf pt eff | w | w p grf pt eff];
    cbn [ends_session callback_window callback_run]; try discriminate;
    intros _ Hw.
  - unfold DragTargetAdapter.DragLeave. rewrite Hw. reflexivity.
  - now apply Drop_releases.
Qed.
End SessionRunFacts.

(** X5.  No sequence of session callbacks, on any windows and with any
    arguments, changes the adapter's reference count. *)
Theorem session_keeps_count
    (E : DropOperationEnum) (P : Platform)
    (a : DragTargetAdapter.t) (cs : list callback) :
  DragTargetAdapter.m_ref (session_run a cs) = DragTargetAdapter.m_ref a.
Proof.
  induction cs as [|c cs IH] using rev_ind; [reflexivity|].
  rewrite session_run_snoc, callback_run_m_ref. exact IH.
Qed.

(** X6.  After any sequence of session callbacks the adapter holds no
    transfer object, or the one it held at the start, or one that the host
    passed to a [DragEnter] of the sequence: an object passed to [Drop] is
    never kept.  And whenever the last callback is a [DragLeave] or a
    [Drop] on a window that has a drag target, the adapter holds none. *)
Theorem session_held_object
    (E : DropOperationEnum) (P : Platform)
    (a : DragTargetAdapter.t) (cs : list callback) :
  match DragTargetAdapter.m_data (session_run a cs) with
  | None => True
  | Some d => DragTargetAdapter.m_data a = Some d \/ In d (entered_objects cs)
  end
  /\ (forall cs' c,
        cs = cs' ++ [c] ->
        ends_session c = true ->
        hasDragTarget (callback_window c) = true ->
        DragTargetAdapter.m_data (session_run a cs) = None).
Proof.
  split.
  - induction cs as [|c cs IH] using rev_ind.
    + cbn. destruct (DragTargetAdapter.m_data a); [now left | exact I].
    + rewrite session_run_snoc.
      pose proof (callback_run_m_data (session_run a cs) c) as Hc.
      destruct (DragTargetAdapter.m_data
                  (snd (callback_run (session_run a cs) c))) as [d|];
        [|exact I].
      rewrite entered_objects_app, in_app_iff.
      destruct Hc as [Hc | Hc]; [|right; right; exact Hc].
      rewrite Hc in IH. destruct IH as [IH | IH]; [left | right; left];
        exact IH.
  - intros cs' c -> Hend Hw. rewrite session_run_snoc.
    now apply ending_callback_releases.
Qed.

(** ** [QueryInterface] *)

(** X7.  [QueryInterface] fails with [E_INVALIDARG] on a null [ppv] and
    with [E_NOINTERFACE], the slot set to null, for any identifier other
    than [IID_IDropTarget] and [IID_IUnknown]; only on success does it
    store the adapter in the slot and add one to the count; and it never
    touches the held transfer object or the stored position. *)
Theorem QueryInterface_outcomes
    (this : DragTargetAdapter.t) (riid : Z)
    (ppv : option interface_pointer) :
  let '(hr, this', ppv') := QueryInterface this riid ppv in
  (ppv = None -> hr = E_INVALIDARG /\ this' = this /\ ppv' = None)
  /\ (ppv <> None -> riid <> IID_IDropTarget -> riid <> IID_IUnknown ->
      hr = E_NOINTERFACE /\ this' = this /\ ppv' = Some pointer_null)
  /\ (ppv <> None -> riid = IID_IDropTarget \/ riid = IID_IUnknown ->
      hr = NOERROR /\ ppv' = Some pointer_this
      /\ DragTargetAdapter.m_ref this'
         = (DragTargetAdapter.m_ref this + 1) mod ULONG_modulus)
  /\ DragTargetAdapter.m_data this' = DragTargetAdapter.m_data this
  /\ DragTargetAdapter.m_position this' = DragTargetAdapter.m_position this
  /\ (hr = NOERROR <-> ppv' = Some pointer_this).
Proof.
  unfold QueryInterface. destruct ppv as [old|].
  - destruct (Z.eqb_spec riid IID_IDropTarget) as [H1 | H1];
      destruct (Z.eqb_spec riid IID_IUnknown) as [H2 | H2];
      cbn [negb andb DragTargetAdapter.AddRef DragTargetAdapter.set_m_ref
           DragTargetAdapter.m_ref DragTargetAdapter.m_data
           DragTargetAdapter.m_position];
      (split; [discriminate|]).
    + split; [intros _ Ha; contradiction|].
      split; [intros _ _; repeat split|].
      repeat split.
    + split; [intros _ Ha; contradiction|].
      split; [intros _ _; repeat split|].
      repeat split.
    + split; [intros _ _ Hb; contradiction|].
      split; [intros _ _; repeat split|].
      repeat split.
    + split; [intros _ _ _; repeat split|].
      split; [intros _ [Hor | Hor]; contradiction|].
      split; [reflexivity|]. split; [reflexivity|].
      split; discriminate.
  - cbn. split; [auto|].
    split; [intros H; contradiction|].
    split; [intros H; contradiction|].
    split; [reflexivity|]. split; [reflexivity|].
    split; discriminate.
Qed.



(** ** [getPaths] *)

Section GetPathsFacts.
Context {P : Platform} {Sh : Shell}.

Lemma getPaths_entry_eq (hdrop : LPVOID) (index : Z) (files : list string) :
  getPaths_entry hdrop index files
  = files ++ (if 0 <? entry_length hdrop index
              then [entry_name hdrop index] else []).
Proof.
  unfold getPaths_entry, entry_name, entry_length.
  destruct (0 <? to_int (fst (DragQueryFile hdrop index None 0)));
    [|now rewrite app_nil_r].
  destruct (DragQueryFile hdrop index _ _) as [n str]. reflexivity.
Qed.

(** The loop is a filter followed by a map. *)
Lemma getPaths_loop_eq (hdrop : LPVOID) (turns : nat) :
  forall (start : nat) (files : list string),
    getPaths_loop hdrop (Z.of_nat start) turns files
    = files ++ map (fun i => entry_name hdrop (Z.of_nat i))
                 (filter (fun i => 0 <? entry_length hdrop (Z.of_nat i))
                         (seq start turns)).
Proof.
  induction turns as [|turns IH]; intros start files.
  - cbn. now rewrite app_nil_r.
  - cbn [getPaths_loop seq filter].
    replace (Z.of_nat start + 1) with (Z.of_nat (S start)) by lia.
    rewrite IH, getPaths_entry_eq, <- app_assoc.
    destruct (0 <? entry_length hdrop (Z.of_nat start)); reflexivity.
Qed.

Lemma listed_paths_length (hdrop : LPVOID) (count : Z) :
  (List.length (listed_paths hdrop count) <= Z.to_nat count)%nat.
Proof.
  unfold listed_paths. rewrite length_map.
  etransitivity; [apply filter_length_le|]. now rewrite length_seq.
Qed.
End GetPathsFacts.

Section GetPathsDelivery.
Context {P : Platform} {C : Win32Contract P}.

(** The buffer that [get] hands out is the one the format delivers. *)
Lemma get_delivered (this : DataWrapper.t) (cfmt : CLIPFORMAT) (tr : trace) :
  let g := fst (fst (DataWrapper.get this cfmt tr)) in
  (if g_data g =? NULL then None else Some g)
  = delivered (DataWrapper.m_data this) cfmt.
Proof.
  cbv zeta. pose proof (release_m_data this tr) as Hd.
  unfold DataWrapper.get, bind, delivered, content_query.
  destruct (DataWrapper.release this tr) as [this1 tr1].
  cbn [fst snd] in *. rewrite Hd.
  destruct (GetData (DataWrapper.m_data this) _) as [hr medium].
  cbn. destruct (hr =? S_OK); cbn.
  - reflexivity.
  - rewrite GlobalLock_NULL. reflexivity.
Qed.
End GetPathsDelivery.



(** ** [getImage]: media *)

Section GetImageMedia.
Context {P : Platform}.

Lemma getImage_png_in_step (this : DataWrapper.t) (tr : trace) :
  in_step this tr ->
  in_step (snd (fst (DragDataProviderWin.getImage_png this tr)))
          (snd (DragDataProviderWin.getImage_png this tr))
  /\ (List.length (queried (snd (DragDataProviderWin.getImage_png this tr)))
      <= List.length (queried tr) + 1)%nat.
Proof.
  intros Hin. unfold DragDataProviderWin.getImage_png, bind.
  destruct (truthy (RegisterClipboardFormatA "PNG")).
  - pose proof (get_in_step this (RegisterClipboardFormatA "PNG") tr Hin)
      as [Hs _].
    pose proof (get_queried this (RegisterClipboardFormatA "PNG") tr) as Hq.
    destruct (DataWrapper.get this (RegisterClipboardFormatA "PNG") tr)
      as [[g this1] tr1].
    cbn [fst snd] in *.
    assert (Hlen : (List.length (queried tr1)
                    <= List.length (queried tr) + 1)%nat).
    { rewrite Hq, length_app. cbn. lia. }
    destruct (negb (g_data g =? NULL)); [|split; assumption].
    destruct (read_png (g_data g) (GLocked_size g)); split; assumption.
  - cbn. split; [exact Hin | lia].
Qed.

(** Running the destructor and returning a value. *)
Lemma dtor_then_ret {A} (this : DataWrapper.t) (a : A) (tr : trace) :
  in_step this tr ->
  let r := bind (DataWrapper.dtor this) (fun _ => ret a) tr in
  one_medium_at_a_time (snd r)
  /\ live_media (snd r) = []
  /\ queried (snd r) = queried tr.
Proof.
  intros Hin. cbv zeta. unfold bind.
  pose proof (dtor_in_step this tr Hin) as [Hg Hl].
  pose proof (dtor_queried this tr) as Hq.
  destruct (DataWrapper.dtor this tr) as [[] tr']. cbn in *.
  split; [exact Hg | split; [exact Hl | exact Hq]].
Qed.
End GetImageMedia.

(** X10.  Whatever the transfer object delivers and whatever the decoders
    answer, [getImage] holds at most one medium at any instant, has
    released every medium it obtained by the time it returns, on each of
    its four return paths, and issues at most three format queries. *)
Theorem getImage_releases_media
    (P : Platform) (d : IDataObject) (indeterminate : STGMEDIUM) :
  let tr := snd (DragDataProviderWin.getImage d indeterminate []) in
  one_medium_at_a_time tr
  /\ live_media tr = []
  /\ (List.length (queried tr) <= 3)%nat.
Proof.
  cbv zeta.
  set (good := fun tr : trace =>
         one_medium_at_a_time tr /\ live_media tr = []
         /\ (List.length (queried tr) <= 3)%nat).
  change (good (snd (DragDataProviderWin.getImage d indeterminate []))).
  assert (Hret : forall (this : DataWrapper.t) (a : SurfaceRef) (tr : trace),
            in_step this tr ->
            (List.length (queried tr) <= 3)%nat ->
            good (snd (bind (DataWrapper.dtor this) (fun _ => ret a) tr))).
  { intros this a tr Hin Hlen.
    destruct (dtor_then_ret this a tr Hin) as (Hg & Hl & Hq).
    split; [exact Hg | split; [exact Hl | rewrite Hq; exact Hlen]]. }
  unfold DragDataProviderWin.getImage.
  unfold bind at 1.
  pose proof (getImage_png_in_step _ _ (ctor_in_step d indeterminate))
    as [Hs1 Hl1].
  destruct (DragDataProviderWin.getImage_png
              (DataWrapper.ctor d indeterminate) []) as [[png this1] tr1].
  cbn [fst snd queried List.length] in *.
  destruct png as [img|]; [apply Hret; [exact Hs1 | lia]|].
  unfold bind at 1.
  pose proof (get_in_step this1 CF_DIBV5 tr1 Hs1) as [Hs2 _].
  pose proof (get_queried this1 CF_DIBV5 tr1) as Hq2.
  destruct (DataWrapper.get this1 CF_DIBV5 tr1) as [[b5 this2] tr2].
  cbn [fst snd] in *.
  assert (Hl2 : (List.length (queried tr2) <= 2)%nat).
  { rewrite Hq2, length_app. cbn. lia. }
  destruct (if negb (g_data b5 =? NULL)
            then BitmapInfo_V5_to_image (g_data b5) else None) as [img|];
    [apply Hret; [exact Hs2 | lia]|].
  unfold bind at 1.
  pose proof (get_in_step this2 CF_DIB tr2 Hs2) as [Hs3 _].
  pose proof (get_queried this2 CF_DIB tr2) as Hq3.
  destruct (DataWrapper.get this2 CF_DIB tr2) as [[hbi this3] tr3].
  cbn [fst snd] in *.
  assert (Hl3 : (List.length (queried tr3) <= 3)%nat).
  { rewrite Hq3, length_app. cbn. lia. }
  destruct (if negb (g_data hbi =? NULL)
            then BitmapInfo_to_image (g_data hbi) else None) as [img|];
    apply Hret; assumption.
Qed.

(** * Further properties of [os/win/wintab.cpp] *)

(** ** [mapCursorButton], the button action codes *)

(** X11.  When the button map is read, the action code found there alone
    decides the mouse button: left for codes 1 to 3, right for 4 to 6,
    middle for 7 to 9, none for any other code.  A double-click code (2, 5
    or 8) overrides the event type; for any other code the event type is
    the one [relativeButton] gives.  So a double click is never reported
    without a button. *)
Theorem mapCursorButton_action_codes
    (WTInfo : Z -> Z -> list Z) (cursor logicalButton relativeButton : Z)
    (action : Z)
    (Hlow : 0 <= logicalButton < 32)
    (Hread : WintabAPI.array_read
               (WTInfo (WintabAPI.WTI_CURSORS + cursor)
                       WintabAPI.CSR_SYSBTNMAP) logicalButton
             = Some action) :
  exists o,
    WintabAPI.mapCursorButton WTInfo cursor logicalButton relativeButton
    = Some o
    /\ (WintabAPI.mouseButton o = WintabAPI.LeftButton
        <-> 1 <= action <= 3)
    /\ (WintabAPI.mouseButton o = WintabAPI.RightButton
        <-> 4 <= action <= 6)
    /\ (WintabAPI.mouseButton o = WintabAPI.MiddleButton
        <-> 7 <= action <= 9)
    /\ (WintabAPI.mouseButton o = WintabAPI.NoneButton
        <-> action < 1 \/ 9 < action)
    /\ (WintabAPI.evType o = WintabAPI.MouseDoubleClick
        <-> action = 2 \/ action = 5 \/ action = 8)
    /\ (WintabAPI.evType o <> WintabAPI.MouseDoubleClick ->
        WintabAPI.evType o = WintabAPI.first_switch relativeButton)
    /\ (WintabAPI.evType o = WintabAPI.MouseDoubleClick ->
        WintabAPI.mouseButton o <> WintabAPI.NoneButton).
Proof.
  unfold WintabAPI.mapCursorButton.
  assert (Hin : (logicalButton <? 0) || (logicalButton >=? 32) = false).
  { apply orb_false_iff. split; [apply Z.ltb_ge; lia|].
    rewrite Z.geb_leb. apply Z.leb_gt. lia. }
  rewrite Hin, Hread.
  assert (Hfirst : WintabAPI.first_switch relativeButton
                   <> WintabAPI.MouseDoubleClick).
  { unfold WintabAPI.first_switch.
    destruct (relativeButton =? WintabAPI.TBN_DOWN); [discriminate|].
    destruct (relativeButton =? WintabAPI.TBN_UP); discriminate. }
  unfold WintabAPI.second_switch, WintabAPI.SBN_LDBLCLICK,
    WintabAPI.SBN_LCLICK, WintabAPI.SBN_LDRAG, WintabAPI.SBN_RDBLCLICK,
    WintabAPI.SBN_RCLICK, WintabAPI.SBN_RDRAG, WintabAPI.SBN_MDBLCLICK,
    WintabAPI.SBN_MCLICK, WintabAPI.SBN_MDRAG.
  destruct (Z.eqb_spec action 2); [eexists; split; [reflexivity|];
    cbn; repeat split; intros; try lia; try congruence; auto|].
  destruct (Z.eqb_spec action 1); [eexists; split; [reflexivity|];
    cbn; repeat split; intros; try lia; try congruence; auto|].
  destruct (Z.eqb_spec action 3); [eexists; split; [reflexivity|];
    cbn; repeat split; intros; try lia; try congruence; auto|].
  destruct (Z.eqb_spec action 5); [eexists; split; [reflexivity|];
    cbn; repeat split; intros; try lia; try congruence; auto|].
  destruct (Z.eqb_spec action 4); [eexists; split; [reflexivity|];
    cbn; repeat split; intros; try lia; try congruence; auto|].
  destruct (Z.eqb_spec action 6); [eexists; split; [reflexivity|];
    cbn; repeat split; intros; try lia; try congruence; auto|].
  destruct (Z.eqb_spec action 8); [eexists; split; [reflexivity|];
    cbn; repeat split; intros; try lia; try congruence; auto|].
  destruct (Z.eqb_spec action 7); [eexists; split; [reflexivity|];
    cbn; repeat split; intros; try lia; try congruence; auto|].
  destruct (Z.eqb_spec action 9); [eexists; split; [reflexivity|];
    cbn; repeat split; intros; try lia; try congruence; auto|].
  eexists; split; [reflexivity|].
  cbn; repeat split; intros; try lia; try congruence; auto.
Qed.

Lemma mapCursorButton_action_codes_witness :
  exists o,
    WintabAPI.mapCursorButton sample_WTInfo 0 5 WintabAPI.TBN_DOWN = Some o
    /\ WintabAPI.mouseButton o = WintabAPI.LeftButton.
Proof.
  destruct (mapCursorButton_action_codes sample_WTInfo 0 5
              WintabAPI.TBN_DOWN WintabAPI.SBN_LCLICK
              ltac:(lia) eq_refl) as (o & Ho & Hleft & _).
  exists o. split; [exact Ho|]. apply Hleft. unfold WintabAPI.SBN_LCLICK. lia.
Defined.

(** ** [open]: enlarging the queue *)

Section QueueLoopFacts.
Context {T : Wintab.Tablet}.

(** Once the sizes down to [q] are used up, more turns change nothing. *)
Lemma queue_loop_turns (ctx : Wintab.HCTX) (q : Z) (n : nat) :
  forall r d l extra,
    r - 8 * Z.of_nat n < q ->
    Wintab.queue_loop ctx q r (n + extra) d l
    = Wintab.queue_loop ctx q r n d l.
Proof.
  induction n as [|n IH]; intros r d l extra Hr.
  - cbn [Nat.add Wintab.queue_loop]. destruct extra; [reflexivity|].
    cbn [Wintab.queue_loop].
    replace (r >=? q) with false; [reflexivity|].
    symmetry. rewrite Z.geb_leb. apply Z.leb_gt. lia.
  - cbn [Nat.add Wintab.queue_loop].
    destruct (r >=? q); [|reflexivity].
    destruct (Wintab.do_WTQueueSizeSet d ctx r) as [res d'].
    destruct (truthy res); [reflexivity|].
    destruct (r - 8 <? Wintab.INT_MIN); [reflexivity|].
    apply IH. lia.
Qed.

(** When [q] is at least 8 above the least [int], [r] does not
    overflow: the loop is defined. *)
Lemma queue_loop_defined (ctx : Wintab.HCTX) (q : Z) (n : nat) :
  Wintab.INT_MIN + 8 <= q ->
  forall r d l,
  exists d' l', Wintab.queue_loop ctx q r n d l = Some (d', l').
Proof.
  intros Hq. induction n as [|n IH]; intros r d l.
  - exists d, l. reflexivity.
  - cbn [Wintab.queue_loop].
    destruct (r >=? q) eqn:Hrq; [|exists d, l; reflexivity].
    rewrite Z.geb_leb in Hrq. apply Z.leb_le in Hrq.
    destruct (Wintab.do_WTQueueSizeSet d ctx r) as [res d'].
    destruct (truthy res); [eexists; eexists; reflexivity|].
    replace (r - 8 <? Wintab.INT_MIN) with false; [apply IH|].
    symmetry. apply Z.ltb_ge. lia.
Qed.

Lemma queue_loop_shape (ctx : Wintab.HCTX) (q : Z) (n : nat) :
  forall r d l d' l',
  Wintab.queue_loop ctx q r n d l = Some (d', l') ->
  exists reqs,
    l' = l ++ map (queue_event ctx) reqs
    /\ (List.length reqs <= n)%nat
    /\ (forall i p, nth_error reqs i = Some p ->
          fst p = r - 8 * Z.of_nat i /\ q <= fst p)
    /\ (forall i p, nth_error reqs i = Some p ->
          (S i < List.length reqs)%nat -> snd p = 0)
    /\ ((exists p, nth_error reqs (List.length reqs - 1) = Some p
                   /\ snd p <> 0)
        \/ r - 8 * Z.of_nat (List.length reqs) < q
        \/ List.length reqs = n).
Proof.
  induction n as [|n IH]; intros r d l d2 l2 Hrun.
  - cbn in Hrun. injection Hrun as <- <-.
    exists []. cbn. rewrite app_nil_r.
    split; [reflexivity|]. split; [lia|].
    split; [intros [|i] p H; discriminate H|].
    split; [intros [|i] p H; discriminate H|].
    right. right. reflexivity.
  - cbn [Wintab.queue_loop] in Hrun.
    destruct (r >=? q) eqn:Hrq.
    2:{ injection Hrun as <- <-. exists []. cbn. rewrite app_nil_r.
        rewrite Z.geb_leb in Hrq. apply Z.leb_gt in Hrq.
        split; [reflexivity|]. split; [lia|].
        split; [intros [|i] p H; discriminate H|].
        split; [intros [|i] p H; discriminate H|].
        right. left. lia. }
    rewrite Z.geb_leb in Hrq. apply Z.leb_le in Hrq.
    destruct (Wintab.do_WTQueueSizeSet d ctx r) as [res d'].
    destruct (truthy res) eqn:Hres.
    + injection Hrun as <- <-.
      exists [(r, res)]. cbn [snd map List.length].
      split; [reflexivity|]. split; [lia|].
      split.
      { intros [|[|i]] p H; try discriminate H.
        injection H as <-. cbn. split; lia. }
      split; [intros i p _ Hi; cbn in Hi; lia|].
      left. exists (r, res). split; [reflexivity|].
      cbn. unfold truthy in Hres. apply negb_true_iff in Hres.
      now apply Z.eqb_neq in Hres.
    + destruct (r - 8 <? Wintab.INT_MIN); [discriminate Hrun|].
      destruct (IH (r - 8) d'
                  (l ++ [Wintab.EvWTQueueSizeSet ctx r res]) d2 l2 Hrun)
        as (reqs & Hlog & Hlen & Hsizes & Hzero & Hend).
      exists ((r, res) :: reqs). cbn [List.length map].
      split.
      { rewrite Hlog, <- app_assoc. reflexivity. }
      split; [lia|].
      split.
      { intros [|i] p H.
        - injection H as <-. cbn. split; lia.
        - cbn in H. destruct (Hsizes i p H) as [H1 H2].
          split; [rewrite H1; lia | exact H2]. }
      split.
      { intros [|i] p H Hi.
        - injection H as <-. cbn. unfold truthy in Hres.
          apply negb_false_iff in Hres. now apply Z.eqb_eq in Hres.
        - cbn in H. apply (Hzero i p H). lia. }
      destruct reqs as [|p0 reqs'].
      * destruct Hend as [(p & Hp & _) | [Hend | Hend]].
        -- discriminate Hp.
        -- right. left. cbn in *. lia.
        -- right. right. cbn in *. lia.
      * destruct Hend as [(p & Hp & Hnz) | [Hend | Hend]].
        -- left. exists p. split; [|exact Hnz].
           cbn [List.length] in *.
           replace (S (S (List.length reqs')) - 1)%nat
             with (S (S (List.length reqs') - 1)) by lia.
           exact Hp.
        -- right. left. cbn [List.length] in *. lia.
        -- right. right. cbn [List.length] in *. lia.
Qed.

Lemma queue_turns_enough (q : Z) :
  q <= 128 -> 128 - 8 * Z.of_nat (Wintab.queue_turns q) < q.
Proof.
  intros Hq. unfold Wintab.queue_turns.
  pose proof (Z.div_mod (128 - q) 8 ltac:(lia)) as Hdm.
  pose proof (Z.mod_pos_bound (128 - q) 8 ltac:(lia)) as Hm.
  assert (0 <= (128 - q) / 8) by (apply Z.div_pos; lia).
  rewrite Z2Nat.id by lia. lia.
Qed.
End QueueLoopFacts.

Lemma refused_or_granted (reqs : list (Z * Z)) :
  (forall i p, nth_error reqs i = Some p ->
     (S i < List.length reqs)%nat -> snd p = 0) ->
  (exists p, nth_error reqs (List.length reqs - 1) = Some p /\ snd p <> 0)
  \/ Forall (fun p => snd p = 0) reqs.
Proof.
  intros Hzero.
  destruct (nth_error reqs (List.length reqs - 1)) as [p|] eqn:Hlast.
  - destruct (Z.eq_dec (snd p) 0) as [Hp | Hp];
      [|left; exists p; split; [reflexivity | exact Hp]].
    right. apply Forall_forall. intros x Hin.
    apply In_nth_error in Hin. destruct Hin as [i Hi].
    assert (Hlt : (i < List.length reqs)%nat).
    { apply nth_error_Some. rewrite Hi. discriminate. }
    destruct (Nat.eq_dec i (List.length reqs - 1)) as [-> | Hne].
    + rewrite Hlast in Hi. injection Hi as <-. exact Hp.
    + apply (Hzero i x Hi). lia.
  - right. apply nth_error_None in Hlast.
    destruct reqs; [constructor | cbn in Hlast; lia].
Qed.

(** X12.  The loop by which [open] enlarges a queue of size [q < 128],
    for [q] at least 8 above the least [int] so that the loop variable
    does not overflow: it is defined; it asks [WTQueueSizeSet] for 128,
    then 120, then 112 and so on, never for less than [q]; it asks at
    least once; every request but the last was refused; and it stops at
    the first size the driver grants, or else once every size down to [q]
    has been refused.  It makes nothing but these requests, and it ends by
    its own test: more turns change nothing. *)
Theorem open_queue_requests
    (T : Wintab.Tablet) (ctx : Wintab.HCTX) (q : Z)
    (d : Wintab.driver) (l : list Wintab.event)
    (Hq : q < 128)
    (Hint : Wintab.INT_MIN + 8 <= q) :
  exists d' reqs,
    Wintab.queue_loop ctx q 128 (Wintab.queue_turns q) d l
    = Some (d', l ++ map (queue_event ctx) reqs)
    /\ reqs <> []
    /\ (forall i p, nth_error reqs i = Some p ->
          fst p = 128 - 8 * Z.of_nat i /\ q <= fst p <= 128)
    /\ (forall i p, nth_error reqs i = Some p ->
          (S i < List.length reqs)%nat -> snd p = 0)
    /\ ((exists p, nth_error reqs (List.length reqs - 1) = Some p
                   /\ snd p <> 0)
        \/ (Forall (fun p => snd p = 0) reqs
            /\ 128 - 8 * Z.of_nat (List.length reqs) < q))
    /\ (forall extra,
          Wintab.queue_loop ctx q 128 (Wintab.queue_turns q + extra) d l
          = Wintab.queue_loop ctx q 128 (Wintab.queue_turns q) d l).
Proof.
  destruct (queue_loop_defined ctx q (Wintab.queue_turns q) Hint 128 d l)
    as (d' & l' & Hrun).
  destruct (queue_loop_shape ctx q (Wintab.queue_turns q) 128 d l d' l'
              Hrun)
    as (reqs & Hlog & Hlen & Hsizes & Hzero & Hend).
  pose proof (queue_turns_enough q ltac:(lia)) as Hturns.
  assert (Hdone : (exists p, nth_error reqs (List.length reqs - 1) = Some p
                             /\ snd p <> 0)
                  \/ 128 - 8 * Z.of_nat (List.length reqs) < q).
  { destruct Hend as [H | [H | H]]; [left; exact H | right; exact H|].
    right. rewrite H. exact Hturns. }
  exists d', reqs. split; [rewrite Hrun, Hlog; reflexivity|].
  split.
  { intros ->. destruct Hdone as [(p & Hp & _) | H];
      [discriminate Hp | cbn in H; lia]. }
  split.
  { intros i p H. destruct (Hsizes i p H) as [H1 H2].
    split; [exact H1 | lia]. }
  split; [exact Hzero|].
  split.
  { destruct Hdone as [H | H]; [left; exact H|].
    destruct (refused_or_granted reqs Hzero) as [Hsome | Hall];
      [left; exact Hsome|].
    right. split; [exact Hall | exact H]. }
  intros extra. apply queue_loop_turns. exact Hturns.
Qed.

Lemma open_queue_requests_witness :
  exists d' reqs,
    @Wintab.queue_loop sample_tablet 0x99 32 128
      (Wintab.queue_turns 32) 32 []
    = Some (d', [] ++ map (queue_event 0x99) reqs)
    /\ reqs <> [].
Proof.
  destruct (open_queue_requests sample_tablet 0x99 32 32 []
              ltac:(lia) ltac:(unfold Wintab.INT_MIN; lia))
    as (d' & reqs & Hlog & Hne & _).
  exists d', reqs. split; [exact Hlog | exact Hne].
Defined.

(** ** [loadWintab] and [open] *)

Section LoadFacts.
Context {T : Wintab.Tablet}.

Lemma opened_contexts_app (l1 l2 : list Wintab.event) :
  Wintab.opened_contexts (l1 ++ l2)
  = Wintab.opened_contexts l1 ++ Wintab.opened_contexts l2.
Proof.
  induction l1 as [|e l1 IH]; [reflexivity|].
  destruct e; cbn; now rewrite IH.
Qed.

Lemma queue_requests_app (l1 l2 : list Wintab.event) :
  Wintab.queue_requests (l1 ++ l2)
  = Wintab.queue_requests l1 ++ Wintab.queue_requests l2.
Proof.
  induction l1 as [|e l1 IH]; [reflexivity|].
  destruct e; cbn; now rewrite IH.
Qed.

Lemma opened_contexts_requests (ctx : Wintab.HCTX) (reqs : list (Z * Z)) :
  Wintab.opened_contexts (map (queue_event ctx) reqs) = [].
Proof. induction reqs as [|p reqs IH]; [reflexivity | exact IH]. Qed.

(** What [loadWintab] leaves behind, case by case. *)
Lemma loadWintab_cases (w : Wintab.world) :
  Wintab.drv (snd (Wintab.loadWintab w)) = Wintab.drv w
  /\ Wintab.opened_contexts (Wintab.log (snd (Wintab.loadWintab w)))
     = Wintab.opened_contexts (Wintab.log w)
  /\ Wintab.queue_requests (Wintab.log (snd (Wintab.loadWintab w)))
     = Wintab.queue_requests (Wintab.log w)
  /\ Wintab.m_outBounds (Wintab.api (snd (Wintab.loadWintab w)))
     = Wintab.m_outBounds (Wintab.api w)
  /\ Wintab.m_minPressure (Wintab.api (snd (Wintab.loadWintab w)))
     = Wintab.m_minPressure (Wintab.api w)
  /\ Wintab.m_maxPressure (Wintab.api (snd (Wintab.loadWintab w)))
     = Wintab.m_maxPressure (Wintab.api w)
  /\ Wintab.m_queueSize (Wintab.api (snd (Wintab.loadWintab w)))
     = Wintab.m_queueSize (Wintab.api w).
Proof.
  unfold Wintab.loadWintab.
  destruct (Wintab.load_dll "wintab32.dll") as [h|];
    [destruct (Wintab.checkDll h)|]; cbn;
    try match goal with
        | |- context [if ?b then _ else _] => destruct b
        end;
    cbn;
    rewrite ?opened_contexts_app, ?queue_requests_app, ?app_nil_r;
    cbn; rewrite ?app_nil_r; repeat split; reflexivity.
Qed.
End LoadFacts.

(** X13.  [loadWintab] succeeds exactly when [wintab32.dll] loads, its
    file exists, its SHA-1 is not the blocked one, and it exports
    [WTInfoW], [WTOpenW], [WTClose], [WTPacket], [WTQueueSizeGet] and
    [WTQueueSizeSet]; [WTPacketsGet] and [WTOverlap] are looked up but not
    required.  A DLL rejected by [checkDll] is unloaded and the handle is
    null again; a DLL that passes [checkDll] stays loaded, with the handle
    set, also when a required function is missing. *)
Theorem loadWintab_outcome (T : Wintab.Tablet) (w : Wintab.world) :
  let r := Wintab.loadWintab w in
  (fst r = true <->
   exists h,
     Wintab.load_dll "wintab32.dll" = Some h
     /\ Wintab.is_file (Wintab.get_dll_filename h) = true
     /\ Wintab.Sha1_calculateFromFile (Wintab.get_dll_filename h)
        <> "a3ba0d9c0f5d8b9f4070981b243a80579f8be105"%string
     /\ Wintab.get_dll_proc h "WTInfoW" = true
     /\ Wintab.get_dll_proc h "WTOpenW" = true
     /\ Wintab.get_dll_proc h "WTClose" = true
     /\ Wintab.get_dll_proc h "WTPacket" = true
     /\ Wintab.get_dll_proc h "WTQueueSizeGet" = true
     /\ Wintab.get_dll_proc h "WTQueueSizeSet" = true)
  /\ Wintab.m_wintabLib (Wintab.api (snd r))
     = match Wintab.load_dll "wintab32.dll" with
       | Some h => if Wintab.checkDll h then Some h else None
       | None => None
       end
  /\ Wintab.log (snd r)
     = Wintab.log w ++ Wintab.EvLoadDll "wintab32.dll"
       :: match Wintab.load_dll "wintab32.dll" with
          | Some h => if Wintab.checkDll h then []
                      else [Wintab.EvUnloadDll h]
          | None => []
          end.
Proof.
  cbv zeta. unfold Wintab.loadWintab.
  destruct (Wintab.load_dll "wintab32.dll") as [h|].
  2:{ cbn. split; [|split; reflexivity].
      split; [discriminate | intros (h & H & _); discriminate H]. }
  unfold Wintab.checkDll.
  destruct (Wintab.is_file (Wintab.get_dll_filename h)) eqn:Hfile.
  2:{ cbn. split; [|split; [reflexivity | now rewrite <- app_assoc]].
      split; [discriminate|].
      intros (h' & [= <-] & Hf & _). congruence. }
  cbn [negb].
  destruct (String.eqb_spec
              (Wintab.Sha1_calculateFromFile (Wintab.get_dll_filename h))
              "a3ba0d9c0f5d8b9f4070981b243a80579f8be105") as [Hsum | Hsum].
  { cbn. split; [|split; [reflexivity | now rewrite <- app_assoc]].
    split; [discriminate|].
    intros (h' & [= <-] & _ & Hs & _). contradiction. }
  cbn [negb Wintab.WTInfo Wintab.WTOpen Wintab.WTClose Wintab.WTPacket
       Wintab.WTQueueSizeGet Wintab.WTQueueSizeSet].
  destruct (Wintab.get_dll_proc h "WTInfoW") eqn:H1,
           (Wintab.get_dll_proc h "WTOpenW") eqn:H2,
           (Wintab.get_dll_proc h "WTClose") eqn:H3,
           (Wintab.get_dll_proc h "WTPacket") eqn:H4,
           (Wintab.get_dll_proc h "WTQueueSizeGet") eqn:H5,
           (Wintab.get_dll_proc h "WTQueueSizeSet") eqn:H6;
    cbn; (split; [|split; reflexivity]);
    (split;
     [try discriminate; intros _; exists h; repeat split; assumption
     | try reflexivity;
       intros (h' & [= <-] & _ & _ & G1 & G2 & G3 & G4 & G5 & G6);
       congruence]).
Qed.

Section OpenFacts.
Context {T : Wintab.Tablet}.

Lemma testbit_1 (n : Z) : 0 <= n -> n <> 0 -> Z.testbit 1 n = false.
Proof. intros H0 Hn. apply Z.bits_above_log2; cbn; lia. Qed.

Lemma testbit_12 (n : Z) :
  0 <= n -> n <> 2 -> n <> 3 -> Z.testbit 12 n = false.
Proof.
  intros H0 H2 H3.
  destruct (Z.eq_dec n 0) as [-> | Hn0]; [reflexivity|].
  destruct (Z.eq_dec n 1) as [-> | Hn1]; [reflexivity|].
  apply Z.bits_above_log2; cbn; lia.
Qed.

(** The options: the system-cursor bit follows [moveMouse], the two
    message bits are set, every other bit is the default's. *)
Lemma open_options_bits (options : Z) (moveMouse : bool) :
  Z.testbit (Wintab.open_options options moveMouse) 0 = moveMouse
  /\ Z.testbit (Wintab.open_options options moveMouse) 2 = true
  /\ Z.testbit (Wintab.open_options options moveMouse) 3 = true
  /\ (forall n, 0 <= n -> n <> 0 -> n <> 2 -> n <> 3 ->
        Z.testbit (Wintab.open_options options moveMouse) n
        = Z.testbit options n).
Proof.
  unfold Wintab.open_options, Wintab.CXO_SYSTEM.
  change (Z.lor Wintab.CXO_MESSAGES Wintab.CXO_CSRMESSAGES) with 12.
  split; [|split; [|split]].
  - rewrite Z.lor_spec. destruct moveMouse.
    + rewrite Z.lor_spec. cbn. now rewrite orb_true_r.
    + rewrite Z.land_spec, Z.lnot_spec by lia. cbn.
      now rewrite andb_false_r.
  - rewrite Z.lor_spec. cbn. now rewrite orb_true_r.
  - rewrite Z.lor_spec. cbn. now rewrite orb_true_r.
  - intros n H0 Hn0 Hn2 Hn3. rewrite Z.lor_spec, testbit_12 by assumption.
    rewrite orb_false_r. destruct moveMouse.
    + rewrite Z.lor_spec, testbit_1 by assumption. now rewrite orb_false_r.
    + rewrite Z.land_spec, Z.lnot_spec, testbit_1 by assumption.
      now rewrite andb_true_r.
Qed.

Lemma opened_context_as_opened (moveMouse : bool) (others : nat) :
  context_as_opened moveMouse
    (snd (Wintab.WTInfo_DEFSYSCTX (Wintab.LOGCONTEXTW_zero others)))
    (opened_context moveMouse others).
Proof.
  unfold context_as_opened, opened_context. cbn.
  destruct (open_options_bits
              (Wintab.lcOptions
                 (snd (Wintab.WTInfo_DEFSYSCTX
                         (Wintab.LOGCONTEXTW_zero others)))) moveMouse)
    as (H0 & H2 & H3 & Hn).
  repeat split; try assumption; reflexivity.
Qed.

(** Every way [open] can return, with the calls it has made. *)
Lemma open_returns (w : Wintab.world) (hwnd : HWND) (moveMouse : bool)
    (others : nat) (pressure : Wintab.AXIS)
    (ctx : Wintab.HCTX) (w' : Wintab.world) :
  Wintab.open w hwnd moveMouse others pressure = Some (ctx, w') ->
  (ctx = NULL /\ w' = after_load w
   /\ (Wintab.m_wintabLib (Wintab.api w) = None
       /\ fst (Wintab.loadWintab w) = false))
  \/ (Wintab.WTInfo (Wintab.fns (after_load w)) = true
      /\ Wintab.WTOpen (Wintab.fns (after_load w)) = true
      /\ exists reqs,
           Wintab.log w'
           = Wintab.log (after_load w)
             ++ Wintab.EvWTOpen hwnd (opened_context moveMouse others) 1
             :: map (queue_event ctx) reqs
           /\ (ctx = NULL -> reqs = []
               /\ Wintab.m_queueSize (Wintab.api w')
                  = Wintab.m_queueSize (Wintab.api (after_load w)))
           /\ (ctx <> NULL ->
               Wintab.m_queueSize (Wintab.api w')
               = Wintab.do_WTQueueSizeGet (Wintab.drv w') ctx)
           /\ Wintab.m_wintabLib (Wintab.api w')
              = Wintab.m_wintabLib (Wintab.api (after_load w))
           /\ Wintab.m_outBounds (Wintab.api w')
              = {| Wintab.rect_x :=
                     Wintab.lcOutOrgX (opened_context moveMouse others);
                   Wintab.rect_y :=
                     Wintab.lcOutOrgY (opened_context moveMouse others);
                   Wintab.rect_w :=
                     Wintab.lcOutExtX (opened_context moveMouse others);
                   Wintab.rect_h :=
                     Wintab.lcOutExtY (opened_context moveMouse others) |}
           /\ (Wintab.m_minPressure (Wintab.api w'),
               Wintab.m_maxPressure (Wintab.api w'))
              = (if fst (Wintab.WTInfo_NPRESSURE pressure)
                    >=? Wintab.sizeof_AXIS
                 then (Wintab.axMin (snd (Wintab.WTInfo_NPRESSURE pressure)),
                       Wintab.axMax (snd (Wintab.WTInfo_NPRESSURE pressure)))
                 else (0, 0))).
Proof.
  unfold Wintab.open, after_load, opened_context.
  destruct (Wintab.m_wintabLib (Wintab.api w)) as [h|] eqn:Hlib.
  - cbn [negb fst snd].
    destruct (Wintab.WTInfo (Wintab.fns w)); [|discriminate].
    cbn [negb].
    destruct (Wintab.WTInfo_DEFSYSCTX (Wintab.LOGCONTEXTW_zero others))
      as [infoRes def].
    destruct (Wintab.WTInfo_NPRESSURE pressure) as [ir ax].
    cbn [fst snd Wintab.lcOutOrgX Wintab.lcOutOrgY Wintab.lcOutExtX
         Wintab.lcOutExtY].
    destruct (ir >=? Wintab.sizeof_AXIS);
      (destruct (Wintab.WTOpen (Wintab.fns w)); [|discriminate]);
      cbn [negb];
      destruct (Wintab.do_WTOpen (Wintab.drv w) hwnd _ 1) as [c d1];
      (destruct (truthy c) eqn:Hc; cbn [negb];
       [ destruct (Wintab.WTQueueSizeGet (Wintab.fns w)); [|discriminate];
         cbn [negb];
         destruct (Wintab.do_WTQueueSizeGet d1 c <? 128) eqn:Hq;
         [ destruct (Wintab.WTQueueSizeSet (Wintab.fns w)); [|discriminate];
           cbn [negb andb];
           destruct (Wintab.queue_loop c _ 128 _ d1 _) as [[d2 l2]|]
             eqn:Hloop; [|discriminate];
           destruct (queue_loop_shape _ _ _ _ _ _ _ _ Hloop)
             as (reqs & Hlog & _);
           intros [= <- <-]; right;
           (split; [reflexivity|]); (split; [reflexivity|]);
           exists reqs; cbn;
           (split; [rewrite Hlog, <- app_assoc; reflexivity|]);
           (split; [intros ->; discriminate Hc|]);
           repeat split; reflexivity
         | cbn [andb]; intros [= <- <-]; right;
           (split; [reflexivity|]); (split; [reflexivity|]);
           exists []; cbn;
           (split; [reflexivity|]);
           (split; [intros ->; discriminate Hc|]);
           repeat split; reflexivity ]
       | intros [= <- <-]; right;
         (split; [reflexivity|]); (split; [reflexivity|]);
         exists []; cbn;
         (split; [reflexivity|]);
         (split; [intros _; split; reflexivity|]);
         (split; [intros Hne; contradiction Hne; reflexivity|]);
         repeat split; reflexivity ]).
  - destruct (Wintab.loadWintab w) as [loaded w0] eqn:Hload.
    cbn [fst snd]. destruct loaded; cbn [negb].
    2:{ intros [= <- <-]. left. repeat split; reflexivity. }
    destruct (Wintab.WTInfo (Wintab.fns w0)); [|discriminate].
    cbn [negb].
    destruct (Wintab.WTInfo_DEFSYSCTX (Wintab.LOGCONTEXTW_zero others))
      as [infoRes def].
    destruct (Wintab.WTInfo_NPRESSURE pressure) as [ir ax].
    cbn [fst snd Wintab.lcOutOrgX Wintab.lcOutOrgY Wintab.lcOutExtX
         Wintab.lcOutExtY].
    destruct (ir >=? Wintab.sizeof_AXIS);
      (destruct (Wintab.WTOpen (Wintab.fns w0)); [|discriminate]);
      cbn [negb];
      destruct (Wintab.do_WTOpen (Wintab.drv w0) hwnd _ 1) as [c d1];
      (destruct (truthy c) eqn:Hc; cbn [negb];
       [ destruct (Wintab.WTQueueSizeGet (Wintab.fns w0)); [|discriminate];
         cbn [negb];
         destruct (Wintab.do_WTQueueSizeGet d1 c <? 128) eqn:Hq;
         [ destruct (Wintab.WTQueueSizeSet (Wintab.fns w0)); [|discriminate];
           cbn [negb andb];
           destruct (Wintab.queue_loop c _ 128 _ d1 _) as [[d2 l2]|]
             eqn:Hloop; [|discriminate];
           destruct (queue_loop_shape _ _ _ _ _ _ _ _ Hloop)
             as (reqs & Hlog & _);
           intros [= <- <-]; right;
           (split; [reflexivity|]); (split; [reflexivity|]);
           exists reqs; cbn;
           (split; [rewrite Hlog, <- app_assoc; reflexivity|]);
           (split; [intros ->; discriminate Hc|]);
           repeat split; reflexivity
         | cbn [andb]; intros [= <- <-]; right;
           (split; [reflexivity|]); (split; [reflexivity|]);
           exists []; cbn;
           (split; [reflexivity|]);
           (split; [intros ->; discriminate Hc|]);
           repeat split; reflexivity ]
       | intros [= <- <-]; right;
         (split; [reflexivity|]); (split; [reflexivity|]);
         exists []; cbn;
         (split; [reflexivity|]);
         (split; [intros _; split; reflexivity|]);
         (split; [intros Hne; contradiction Hne; reflexivity|]);
         repeat split; reflexivity ]).
Qed.
End OpenFacts.

Section OpenLogs.
Context {T : Wintab.Tablet}.

Lemma after_load_contexts (w : Wintab.world) :
  Wintab.opened_contexts (Wintab.log (after_load w))
  = Wintab.opened_contexts (Wintab.log w).
Proof.
  unfold after_load. destruct (Wintab.m_wintabLib (Wintab.api w));
    [reflexivity | apply loadWintab_cases].
Qed.
End OpenLogs.

(** X14.  Whenever [open] returns, it has handed to [WTOpen] at most one
    context, and exactly one when it returns a context handle.  In that
    context the system-cursor option is set exactly when [moveMouse] is
    true, the two message options are set, every other option bit and the
    output rectangle are those of the default system context, and the
    packet data, packet mode and move mask are [PACKETDATA], [PACKETMODE]
    and [PACKETDATA]. *)
Theorem open_context_options
    (T : Wintab.Tablet) (w : Wintab.world) (hwnd : HWND) (moveMouse : bool)
    (others : nat) (pressure : Wintab.AXIS)
    (ctx : Wintab.HCTX) (w' : Wintab.world)
    (Hopen : Wintab.open w hwnd moveMouse others pressure = Some (ctx, w')) :
  ((ctx = NULL
    /\ Wintab.opened_contexts (Wintab.log w')
       = Wintab.opened_contexts (Wintab.log w))
   \/ exists c,
        Wintab.opened_contexts (Wintab.log w')
        = Wintab.opened_contexts (Wintab.log w) ++ [c]
        /\ context_as_opened moveMouse
             (snd (Wintab.WTInfo_DEFSYSCTX (Wintab.LOGCONTEXTW_zero others)))
             c)
  /\ (ctx <> NULL ->
      exists c,
        Wintab.opened_contexts (Wintab.log w')
        = Wintab.opened_contexts (Wintab.log w) ++ [c]
        /\ context_as_opened moveMouse
             (snd (Wintab.WTInfo_DEFSYSCTX (Wintab.LOGCONTEXTW_zero others)))
             c).
Proof.
  destruct (open_returns w hwnd moveMouse others pressure ctx w' Hopen)
    as [(Hnull & -> & _) | (_ & _ & reqs & Hlog & _)].
  - split; [left; split; [exact Hnull | apply after_load_contexts]|].
    intros Hne. contradiction.
  - assert (Hc : exists c,
              Wintab.opened_contexts (Wintab.log w')
              = Wintab.opened_contexts (Wintab.log w) ++ [c]
              /\ context_as_opened moveMouse
                   (snd (Wintab.WTInfo_DEFSYSCTX
                           (Wintab.LOGCONTEXTW_zero others))) c).
    { exists (opened_context moveMouse others).
      split; [|apply opened_context_as_opened].
      rewrite Hlog, opened_contexts_app, after_load_contexts.
      cbn [Wintab.opened_contexts].
      now rewrite opened_contexts_requests. }
    split; [right; exact Hc | intros _; exact Hc].
Qed.

Lemma open_context_options_witness :
  exists c,
    Wintab.opened_contexts
      (Wintab.log
         (match @Wintab.open sample_tablet (@sample_world sample_tablet 32)
                  0x20 false 3 sample_axis with
          | Some (_, w') => w'
          | None => @sample_world sample_tablet 32
          end))
    = [c]
    /\ Wintab.lcOptions c = 14.
Proof.
  destruct (@Wintab.open sample_tablet (@sample_world sample_tablet 32)
              0x20 false 3 sample_axis) as [[ctx w']|] eqn:Hopen;
    [|discriminate Hopen].
  pose proof (open_context_options sample_tablet _ _ _ _ _ _ _ Hopen)
    as [_ H].
  assert (Hctx : ctx <> NULL).
  { vm_compute in Hopen. injection Hopen as <- _. discriminate. }
  destruct (H Hctx) as (c & Hc & _).
  exists c. split; [exact Hc|].
  vm_compute in Hopen. injection Hopen as _ <-.
  cbn in Hc. injection Hc as <-. reflexivity.
Defined.

(** X15.  When the library is not loaded and [loadWintab] fails, [open]
    returns a null handle; it opens no context, asks for no queue size,
    leaves the driver alone, and leaves the output bounds, the pressure
    range and the queue size members as they were. *)
Theorem open_fails_closed
    (T : Wintab.Tablet) (w : Wintab.world) (hwnd : HWND) (moveMouse : bool)
    (others : nat) (pressure : Wintab.AXIS)
    (Hlib : Wintab.m_wintabLib (Wintab.api w) = None)
    (Hload : fst (Wintab.loadWintab w) = false) :
  exists w',
    Wintab.open w hwnd moveMouse others pressure = Some (NULL, w')
    /\ Wintab.opened_contexts (Wintab.log w')
       = Wintab.opened_contexts (Wintab.log w)
    /\ Wintab.queue_requests (Wintab.log w')
       = Wintab.queue_requests (Wintab.log w)
    /\ Wintab.drv w' = Wintab.drv w
    /\ Wintab.m_outBounds (Wintab.api w')
       = Wintab.m_outBounds (Wintab.api w)
    /\ Wintab.m_minPressure (Wintab.api w')
       = Wintab.m_minPressure (Wintab.api w)
    /\ Wintab.m_maxPressure (Wintab.api w')
       = Wintab.m_maxPressure (Wintab.api w)
    /\ Wintab.m_queueSize (Wintab.api w')
       = Wintab.m_queueSize (Wintab.api w).
Proof.
  exists (snd (Wintab.loadWintab w)).
  pose proof (loadWintab_cases w) as (H1 & H2 & H3 & H4 & H5 & H6 & H7).
  split.
  - unfold Wintab.open. rewrite Hlib.
    destruct (Wintab.loadWintab w) as [loaded w0]. cbn in Hload.
    subst loaded. reflexivity.
  - repeat split; assumption.
Qed.

Lemma open_fails_closed_witness :
  exists w',
    @Wintab.open sample_tablet_absent
      (@sample_world sample_tablet_absent 32) 0x20 true 3 sample_axis
    = Some (NULL, w')
    /\ Wintab.opened_contexts (Wintab.log w') = [].
Proof.
  destruct (open_fails_closed sample_tablet_absent
              (@sample_world sample_tablet_absent 32) 0x20 true 3
              sample_axis eq_refl eq_refl)
    as (w' & Hopen & Hctx & _).
  exists w'. split; [exact Hopen | exact Hctx].
Defined.

(** X16.  A first [open] that fails because [wintab32.dll] passes
    [checkDll] but lacks [WTInfoW] returns a null handle and leaves the
    library handle set; so a second [open] does not load the library
    again, and calls through the null [WTInfo] pointer. *)
Theorem open_after_incomplete_load
    (T : Wintab.Tablet) (w : Wintab.world) (h : Wintab.HMODULE)
    (hwnd hwnd2 : HWND) (moveMouse moveMouse2 : bool)
    (others others2 : nat) (pressure pressure2 : Wintab.AXIS)
    (Hlib : Wintab.m_wintabLib (Wintab.api w) = None)
    (Hdll : Wintab.load_dll "wintab32.dll" = Some h)
    (Hcheck : Wintab.checkDll h = true)
    (Hproc : Wintab.get_dll_proc h "WTInfoW" = false) :
  exists w1,
    Wintab.open w hwnd moveMouse others pressure = Some (NULL, w1)
    /\ Wintab.m_wintabLib (Wintab.api w1) = Some h
    /\ Wintab.WTInfo (Wintab.fns w1) = false
    /\ Wintab.open w1 hwnd2 moveMouse2 others2 pressure2 = None.
Proof.
  assert (Hload : Wintab.loadWintab w
                  = (false,
                     {| Wintab.api :=
                          Wintab.set_m_wintabLib (Wintab.api w) (Some h);
                        Wintab.fns :=
                          {| Wintab.WTInfo := false;
                             Wintab.WTOpen :=
                               Wintab.get_dll_proc h "WTOpenW";
                             Wintab.WTClose :=
                               Wintab.get_dll_proc h "WTClose";
                             Wintab.WTPacketsGet :=
                               Wintab.get_dll_proc h "WTPacketsGet";
                             Wintab.WTPacket :=
                               Wintab.get_dll_proc h "WTPacket";
                             Wintab.WTOverlap :=
                               Wintab.get_dll_proc h "WTOverlap";
                             Wintab.WTQueueSizeGet :=
                               Wintab.get_dll_proc h "WTQueueSizeGet";
                             Wintab.WTQueueSizeSet :=
                               Wintab.get_dll_proc h "WTQueueSizeSet" |};
                        Wintab.drv := Wintab.drv w;
                        Wintab.log :=
                          Wintab.log w
                          ++ [Wintab.EvLoadDll "wintab32.dll"] |})).
  { unfold Wintab.loadWintab. rewrite Hdll, Hcheck, Hproc. reflexivity. }
  eexists. split.
  - unfold Wintab.open. rewrite Hlib, Hload. reflexivity.
  - split; [reflexivity|]. split; [reflexivity|].
    unfold Wintab.open. reflexivity.
Qed.

Lemma open_after_incomplete_load_witness :
  exists w1,
    @Wintab.open sample_tablet_incomplete
      (@sample_world sample_tablet_incomplete 32) 0x20 false 3 sample_axis
    = Some (NULL, w1)
    /\ @Wintab.open sample_tablet_incomplete w1 0x20 false 3 sample_axis
       = None.
Proof.
  destruct (open_after_incomplete_load sample_tablet_incomplete
              (@sample_world sample_tablet_incomplete 32) 0x7000
              0x20 0x20 false false 3 3 sample_axis sample_axis
              eq_refl eq_refl eq_refl eq_refl)
    as (w1 & H1 & _ & _ & H2).
  exists w1. split; [exact H1 | exact H2].
Defined.

(** X17.  When [open] returns a context handle, the queue size member is
    the size the driver reports after the requests, granted or not; the
    output bounds are the default context's output rectangle; and the
    pressure range is the device's when [WTInfo] reports a whole [AXIS]
    and 0 to 0 otherwise.  When [WTOpen] fails instead, bounds and
    pressure are stored all the same, but no queue size is asked for and
    the queue size member is untouched. *)
Theorem open_members
    (T : Wintab.Tablet) (w : Wintab.world) (hwnd : HWND) (moveMouse : bool)
    (others : nat) (pressure : Wintab.AXIS)
    (ctx : Wintab.HCTX) (w' : Wintab.world)
    (Hopen : Wintab.open w hwnd moveMouse others pressure = Some (ctx, w'))
    (Hloaded : Wintab.opened_contexts (Wintab.log w')
               <> Wintab.opened_contexts (Wintab.log w)) :
  let def := snd (Wintab.WTInfo_DEFSYSCTX (Wintab.LOGCONTEXTW_zero others)) in
  let axis := Wintab.WTInfo_NPRESSURE pressure in
  Wintab.m_outBounds (Wintab.api w')
  = {| Wintab.rect_x := Wintab.lcOutOrgX def;
       Wintab.rect_y := Wintab.lcOutOrgY def;
       Wintab.rect_w := Wintab.lcOutExtX def;
       Wintab.rect_h := Wintab.lcOutExtY def |}
  /\ (Wintab.sizeof_AXIS <= fst axis ->
      Wintab.m_minPressure (Wintab.api w') = Wintab.axMin (snd axis)
      /\ Wintab.m_maxPressure (Wintab.api w') = Wintab.axMax (snd axis))
  /\ (fst axis < Wintab.sizeof_AXIS ->
      Wintab.m_minPressure (Wintab.api w') = 0
      /\ Wintab.m_maxPressure (Wintab.api w') = 0)
  /\ (ctx <> NULL ->
      Wintab.m_queueSize (Wintab.api w')
      = Wintab.do_WTQueueSizeGet (Wintab.drv w') ctx)
  /\ (ctx = NULL ->
      Wintab.m_queueSize (Wintab.api w')
      = Wintab.m_queueSize (Wintab.api w)
      /\ Wintab.queue_requests (Wintab.log w')
         = Wintab.queue_requests (Wintab.log w)).
Proof.
  cbv zeta.
  destruct (open_returns w hwnd moveMouse others pressure ctx w' Hopen)
    as [(Hnull & -> & _)
       | (_ & _ & reqs & Hlog & Hq0 & Hq & _ & Hb & Hp)].
  - contradiction Hloaded. apply after_load_contexts.
  - split; [exact Hb|].
    split.
    { intros Hsize. apply Z.geb_le in Hsize.
      rewrite Hsize in Hp. now injection Hp. }
    split.
    { intros Hsize.
      assert (Hf : (fst (Wintab.WTInfo_NPRESSURE pressure)
                    >=? Wintab.sizeof_AXIS) = false).
      { rewrite Z.geb_leb. apply Z.leb_gt. exact Hsize. }
      rewrite Hf in Hp. now injection Hp. }
    split; [exact Hq|].
    intros Hnull. destruct (Hq0 Hnull) as [-> Hsame].
    split.
    + rewrite Hsame. unfold after_load.
      destruct (Wintab.m_wintabLib (Wintab.api w));
        [reflexivity | apply loadWintab_cases].
    + rewrite Hlog, queue_requests_app. cbn.
      rewrite app_nil_r. unfold after_load.
      destruct (Wintab.m_wintabLib (Wintab.api w));
        [reflexivity | apply loadWintab_cases].
Qed.

Lemma open_members_witness :
  exists ctx w',
    @Wintab.open sample_tablet (@sample_world sample_tablet 32)
      0x20 false 3 sample_axis = Some (ctx, w')
    /\ Wintab.m_queueSize (Wintab.api w') = 96
    /\ Wintab.m_maxPressure (Wintab.api w') = 1023.
Proof.
  destruct (@Wintab.open sample_tablet (@sample_world sample_tablet 32)
              0x20 false 3 sample_axis) as [[ctx w']|] eqn:Hopen;
    [|discriminate Hopen].
  exists ctx, w'. split; [reflexivity|].
  assert (Hlog : Wintab.opened_contexts (Wintab.log w')
                 <> Wintab.opened_contexts
                      (Wintab.log (@sample_world sample_tablet 32))).
  { vm_compute in Hopen. injection Hopen as _ <-. discriminate. }
  pose proof (open_members sample_tablet _ _ _ _ _ _ _ Hopen Hlog) as H.
  cbv zeta in H. destruct H as (_ & Hp & _ & Hq & _).
  assert (Hctx : ctx <> NULL).
  { vm_compute in Hopen. injection Hopen as <- _. discriminate. }
  split.
  - rewrite (Hq Hctx). vm_compute in Hopen. injection Hopen as <- <-.
    reflexivity.
  - apply Hp. cbn. unfold Wintab.sizeof_AXIS. lia.
Defined.
